(** * GLoan-App: the loan application record manager of [server.js]

    A shallow embedding of the Express handlers of [server.js] that create
    and update loan applications, and of the verifyToken middleware that
    guards them.  The Firestore document store and the Firebase identity
    provider are external services: they are modelled by their documented
    contracts over an explicit [World], and everything they decide on their
    own (whether a call fails, how much server time passes, which identifier
    is generated) is read from an environment schedule [env]. *)

From Stdlib Require Import ZArith String Ascii DecimalString.
From stdpp Require Import gmap strings list fin_maps sorting.

Set Warnings "-register-all".
Local Open Scope string_scope.
Local Open Scope list_scope.

(** ** JavaScript values *)

(** Values found in a parsed JSON request body, together with [undefined]
    (what reading an absent property gives).  Numbers are kept as integers;
    an integer stands for the double nearest to it. *)
Inductive JsVal : Type :=
| JUndefined
| JNull
| JBool (b : bool)
| JNum (n : Z)
| JStr (s : string)
| JArr (items : list JsVal)
| JObj (props : list (string * JsVal)).

(** ToBoolean: what [!v] and [v || w] test. *)
Definition truthy (v : JsVal) : bool :=
  match v with
  | JUndefined | JNull => false
  | JBool b => b
  | JNum n => negb (Z.eqb n 0)
  | JStr s => negb (String.eqb s "")
  | JArr _ | JObj _ => true
  end.

(** [a || b] *)
Definition js_or (a b : JsVal) : JsVal := if truthy a then a else b.

(** ** ToString of a number *)

Local Open Scope Z_scope.

(** A JSON number is read as the nearest double (ties to the even
    mantissa).  [round_to_double a] is that double for an integer [a >= 0],
    or [None] when it is beyond the largest double (Infinity). *)
Definition round_to_double (a : Z) : option Z :=
  let bits := Z.log2 a + 1 in
  if bits <=? 53 then Some a
  else
    let sh := bits - 53 in
    let q := Z.shiftr a sh in
    let r := a - q * 2 ^ sh in
    let half := 2 ^ (sh - 1) in
    let q' := if (half <? r) || ((r =? half) && Z.odd q) then q + 1 else q in
    let v := q' * 2 ^ sh in
    if 2 ^ 1024 <=? v then None else Some v.

Definition digits (m : Z) : string := NilZero.string_of_int (Z.to_int m).

Definition num_digits (m : Z) : Z := Z.of_nat (String.length (digits m)).

(** The decimal with the fewest significant digits that reads back as the
    double [v]; of two such, the nearer to [v], and the even one on a tie.
    [d] is the number of digits of [v], [k] the number of significant digits
    tried. *)
Fixpoint shortest_from (fuel : nat) (k v d : Z) : Z :=
  match fuel with
  | O => v
  | S fuel' =>
      let e := d - k in
      if e <=? 0 then v
      else
        let lo := (v / 10 ^ e) * 10 ^ e in
        let hi := lo + 10 ^ e in
        let reads_back m := match round_to_double m with
                            | Some x => x =? v
                            | None => false
                            end in
        match reads_back lo, reads_back hi with
        | true, true =>
            if (v - lo) <? (hi - v) then lo
            else if (hi - v) <? (v - lo) then hi
            else if Z.even (lo / 10 ^ e) then lo else hi
        | true, false => lo
        | false, true => hi
        | false, false => shortest_from fuel' (k + 1) v d
        end
  end.

Definition shortest (v : Z) : Z := shortest_from 17 1 v (num_digits v).

Fixpoint strip_zeros (fuel : nat) (m : Z) : Z :=
  match fuel with
  | O => m
  | S fuel' => if (m mod 10 =? 0) && negb (m =? 0)
               then strip_zeros fuel' (m / 10) else m
  end.

(** The digits of [m > 0] as Number::toString writes them: plainly up to 21
    digits, with an exponent beyond. *)
Definition format_digits (m : Z) : string :=
  let n := num_digits m in
  if n <=? 21 then digits m
  else
    match digits (strip_zeros 400 m) with
    | EmptyString => ""
    | String c EmptyString =>
        String c (String.append "e+" (digits (n - 1)))
    | String c rest =>
        String c (String.append "."
                    (String.append rest (String.append "e+" (digits (n - 1)))))
    end.

Definition number_to_string (n : Z) : string :=
  if n =? 0 then "0"
  else
    String.append (if n <? 0 then "-" else "")
      match round_to_double (Z.abs n) with
      | None => "Infinity"
      | Some v => format_digits (shortest v)
      end.

Local Close Scope Z_scope.

(** [o.hasOwnProperty(k)] for a parsed object. *)
Definition has_key (k : string) (props : list (string * JsVal)) : bool :=
  existsb (fun kv => String.eqb (fst kv) k) props.

(** ToString, as a template literal applies it to an interpolated value;
    [None] is the TypeError of a value that cannot be converted.  A parsed
    object has no callable property, so one with a key toString of its own
    cannot be converted; any other object is converted by
    Object.prototype.toString, an array by joining its elements. *)
Fixpoint to_string (v : JsVal) : option string :=
  match v with
  | JUndefined => Some "undefined"
  | JNull => Some "null"
  | JBool true => Some "true"
  | JBool false => Some "false"
  | JNum n => Some (number_to_string n)
  | JStr s => Some s
  | JArr items =>
      (fix join (l : list JsVal) : option string :=
         match l with
         | [] => Some ""
         | x :: r =>
             let sx := match x with
                       | JUndefined | JNull => Some ""
                       | _ => to_string x
                       end in
             match r with
             | [] => sx
             | _ :: _ =>
                 match sx, join r with
                 | Some a, Some b =>
                     Some (String.append a (String.append "," b))
                 | _, _ => None
                 end
             end
         end) items
  | JObj props =>
      if has_key "toString" props then None else Some "[object Object]"
  end.

(** [s.split(sep)] for a non-empty separator [sep]: the pieces of [s]
    between successive, non-overlapping occurrences of [sep], found left to
    right.  [skip] counts the characters of a matched separator still to be
    passed over; [cur] is the piece being collected. *)
Fixpoint split_from (sep s : string) (skip : nat) (cur : string) : list string :=
  match s with
  | EmptyString => [cur]
  | String c s' =>
      match skip with
      | S k => split_from sep s' k cur
      | O =>
          if String.prefix sep s
          then cur :: split_from sep s' (String.length sep - 1) ""
          else split_from sep s' 0 (String.append cur (String c ""))
      end
  end.

Definition split (s sep : string) : list string := split_from sep s 0 "".

(** ** Errors, requests, responses *)

(** A thrown JavaScript error: the handlers read [error.code] and
    [error.message]. *)
Record Error : Type := mkError { code : JsVal; message : string }.

(** [res.status(statusCode).json(json)] *)
Record Response : Type := mkResponse { statusCode : nat; json : JsVal }.

(** What the handlers read of an Express request: the Authorization header,
    the [:id] route parameter and the parsed JSON body. *)
Record Request : Type := mkRequest {
  authorization : option string;
  params_id : string;
  body : gmap string JsVal
}.

(** [const { k } = req.body]: an absent property reads as [undefined]. *)
Definition prop (o : gmap string JsVal) (k : string) : JsVal :=
  default JUndefined (o !! k).

(** The decoded identity token that verifyToken attaches as [req.user]. *)
Record DecodedToken : Type := mkDecoded { uid : string }.

(** ** The external services *)

(** A stored Firestore field: a plain value, or a timestamp set by the
    server. *)
Inductive Field : Type :=
| FVal (v : JsVal)
| FTimestamp (t : nat).

(** A field as a handler writes it: a plain value, or the sentinel
    [admin.firestore.FieldValue.serverTimestamp()], which the server
    replaces by its own time when it commits the write. *)
Inductive WField : Type :=
| WVal (v : JsVal)
| WServerTimestamp.

(** A document is a finite map from field names to fields; a document path
    is the list of its collection and document segments. *)
Abbreviation Doc := (gmap string Field).
Abbreviation Path := (list string).

(** The arguments of [auth.createUser]. *)
Record UserProps : Type := mkUserProps {
  email : JsVal; password : JsVal; phoneNumber : JsVal
}.

(** The calls a handler issues to the external services. *)
Inductive Call : Type :=
| CreateUser
| VerifyIdToken (idToken : string)
| Add (collection : Path)
| Set_ (document : Path)
| Update (document : Path)
| Get (document : Path).

(** What the environment decides about one external call: the server time
    that passes until the call is served, whether the service fails it for a
    reason of its own (unavailable, argument rejected, permission denied),
    and the identifier the service generates if the call needs one. *)
Record Event : Type := mkEvent {
  elapsed : nat;
  fault : option Error;
  fresh : string
}.

Record World : Type := mkWorld {
  docs : gmap Path Doc;            (* the document store *)
  accounts : gmap string UserProps; (* identity provider: accounts by uid *)
  tokens : gmap string string;      (* identity provider: valid token -> uid *)
  clock : nat;                      (* server time *)
  trace : list Call;                (* external calls issued so far, oldest first *)
  env : nat -> Event                (* the event of the n-th external call *)
}.

Definition set_docs (f : gmap Path Doc -> gmap Path Doc) (w : World) : World :=
  mkWorld (f (docs w)) (accounts w) (tokens w) (clock w) (trace w) (env w).

Definition set_accounts (f : gmap string UserProps -> gmap string UserProps)
    (w : World) : World :=
  mkWorld (docs w) (f (accounts w)) (tokens w) (clock w) (trace w) (env w).

(** ** Computations that may throw *)

Inductive Result (A : Type) : Type :=
| Ok (a : A)
| Throw (e : Error).
Arguments Ok {A} a.
Arguments Throw {A} e.

(** An awaited computation: it runs on the world and either returns or
    throws; what it did to the world before throwing stays done. *)
Definition M (A : Type) : Type := World -> Result A * World.

Definition ret {A} (a : A) : M A := fun w => (Ok a, w).
Definition throw {A} (e : Error) : M A := fun w => (Throw e, w).
Definition bind {A B} (c : M A) (k : A -> M B) : M B :=
  fun w => match c w with
           | (Ok a, w') => k a w'
           | (Throw e, w') => (Throw e, w')
           end.

(** [const x = await c; k] *)
Notation "'let!' x ':=' c 'in' k" := (bind c (fun x => k))
  (at level 10, x name, c at level 100, k at level 200).
(** [await c; k] *)
Notation "'do!' c 'in' k" := (bind c (fun _ => k))
  (at level 10, c at level 100, k at level 200).

(** Issue one external call: it is appended to the trace, the server clock
    advances by the time the environment lets pass, and the call throws if
    the environment fails it. *)
Definition next_event (w : World) : Event := env w (length (trace w)).

Definition called (c : Call) (w : World) : World :=
  mkWorld (docs w) (accounts w) (tokens w)
    (clock w + elapsed (next_event w)) (trace w ++ [c]) (env w).

Definition external (c : Call) : M Event :=
  fun w =>
    match fault (next_event w) with
    | Some e => (Throw e, called c w)
    | None => (Ok (next_event w), called c w)
    end.

(** ** The identity provider *)

Definition invalid_token : Error :=
  mkError (JStr "auth/argument-error") "Decoding Firebase ID token failed.".

(** [auth.verifyIdToken(idToken)]: the decoded token of a valid token;
    throws on anything else. *)
Definition verifyIdToken (idToken : string) : M DecodedToken :=
  do! external (VerifyIdToken idToken) in
  fun w => match tokens w !! idToken with
           | Some u => (Ok (mkDecoded u), w)
           | None => (Throw invalid_token, w)
           end.

(** [auth.createUser(props)]: registers an account under a uid generated by
    the provider and returns that uid. *)
Definition createUser (props : UserProps) : M string :=
  let! ev := external CreateUser in
  fun w => (Ok (fresh ev), set_accounts (insert (fresh ev) props) w).

(** ** The document store *)

(** The operations follow the documented contract of the Firestore client:
    [add] and [set] create documents, [update] only changes existing ones,
    [get] reads.  Besides the failures written out below, the environment
    may fail any call. *)

Definition invalid_path : Error :=
  mkError JUndefined "Path must be a non-empty string.".
Definition already_exists : Error :=
  mkError (JNum 6) "ALREADY_EXISTS: Document already exists".
Definition not_found : Error :=
  mkError (JNum 5) "NOT_FOUND: No document to update".
Definition undefined_value : Error :=
  mkError JUndefined "Cannot use undefined as a Firestore value".

(** The client refuses to write data one of whose fields is [undefined]:
    [add] and [set] throw on it, before anything is sent to the store.  (A
    parsed body holds no [undefined] inside an array or an object, so only
    the fields themselves are looked at.) *)
Definition is_undefined (f : WField) : bool :=
  match f with
  | WVal JUndefined => true
  | _ => false
  end.

Definition has_undefined (data : list (string * WField)) : bool :=
  existsb (fun kv => is_undefined (snd kv)) data.

(** [collection.doc(id)]: the reference to the document [id] of a
    collection; throws, without calling the store, unless [id] is a
    non-empty string. *)
Definition doc (collection : Path) (id : JsVal) : M Path :=
  match id with
  | JStr s => if String.eqb s "" then throw invalid_path
              else ret (collection ++ [s])
  | _ => throw invalid_path
  end.

(** The document the server stores for the data of a write committed at
    server time [now]. *)
Definition stored (now : nat) (data : list (string * WField)) : Doc :=
  list_to_map
    (map (fun kv => (fst kv, match snd kv with
                             | WVal v => FVal v
                             | WServerTimestamp => FTimestamp now
                             end)) data).

(** [collection.add(data)]: creates a document under an identifier
    generated by the store and returns the identifier; like every create it
    fails if that document exists.  Data with an [undefined] field is
    refused without a call. *)
Definition add (collection : Path) (data : list (string * WField)) : M string :=
  if has_undefined data then throw undefined_value
  else
    let! ev := external (Add collection) in
    fun w => match docs w !! (collection ++ [fresh ev]) with
             | Some _ => (Throw already_exists, w)
             | None =>
                 (Ok (fresh ev),
                  set_docs (insert (collection ++ [fresh ev])
                              (stored (clock w) data)) w)
             end.

(** [ref.set(data)]: writes the document, replacing what was there.  Data
    with an [undefined] field is refused without a call. *)
Definition set_doc (ref : Path) (data : list (string * WField)) : M unit :=
  if has_undefined data then throw undefined_value
  else
    do! external (Set_ ref) in
    fun w => (Ok tt, set_docs (insert ref (stored (clock w) data)) w).

(** The fields of [data] written over those of [d]; the others are kept. *)
Definition patch (data : list (string * JsVal)) (d : Doc) : Doc :=
  foldr (fun kv acc => <[fst kv := FVal (snd kv)]> acc) d data.

(** [ref.update(data)]: overwrites the given fields of an existing
    document; fails, creating nothing, if the document does not exist. *)
Definition update (ref : Path) (data : list (string * JsVal)) : M unit :=
  do! external (Update ref) in
  fun w => match docs w !! ref with
           | None => (Throw not_found, w)
           | Some d => (Ok tt, set_docs (insert ref (patch data d)) w)
           end.

(** [(await ref.get()).data()]: the document, or [undefined] ([None]) if
    there is none. *)
Definition get_data (ref : Path) : M (option Doc) :=
  do! external (Get ref) in
  fun w => (Ok (docs w !! ref), w).

(** [appData.k]: a stored timestamp reads as a Timestamp object. *)
Definition field (d : Doc) (k : string) : JsVal :=
  match d !! k with
  | Some (FVal v) => v
  | Some (FTimestamp t) =>
      JObj [("_seconds", JNum (Z.of_nat t)); ("_nanoseconds", JNum 0)]
  | None => JUndefined
  end.

(** ** The handlers of [server.js] *)

(** A route handler runs on the world and always answers. *)
Definition Handler : Type := World -> Response * World.

(** [res.status(c).json(j)] with nothing awaited before it. *)
Definition respond (c : nat) (j : JsVal) : Handler :=
  fun w => (mkResponse c j, w).

(** [handleError(res, error, message)] *)
Definition handleError (error : Error) (msg : string) : Response :=
  mkResponse 500 (JObj [("error", JStr msg);
                        ("details", JStr (message error))]).

Definition cannot_convert : Error :=
  mkError JUndefined "Cannot convert object to primitive value".

(** [${v}] in a template literal: the string of [v], or the TypeError of a
    value that has none. *)
Definition interpolate (v : JsVal) : M string :=
  match to_string v with
  | Some s => ret s
  | None => throw cannot_convert
  end.

(** [try { c } catch (error) { h error }] around the body of a handler whose
    branches all end in a response. *)
Definition try_respond (c : M Response) (h : Error -> Response) : Handler :=
  fun w => match c w with
           | (Ok r, w') => (r, w')
           | (Throw e, w') => (h e, w')
           end.

(** [req.headers.authorization?.split('Bearer ')[1]] *)
Definition idToken_of (req : Request) : JsVal :=
  match authorization req with
  | None => JUndefined
  | Some h => match split h "Bearer " !! 1%nat with
              | Some t => JStr t
              | None => JUndefined
              end
  end.

(** The middleware verifyToken.  [next] stands for the rest of the route;
    it receives the decoded token that the middleware stores in
    [req.user].  The handlers behind it catch their own errors, so the
    [catch] of the middleware only ever sees a failed verification. *)
Definition verifyToken (req : Request) (next : DecodedToken -> Handler) : Handler :=
  match idToken_of req with
  | JStr t =>
      if negb (truthy (JStr t))
      then respond 401 (JObj [("message", JStr "No token provided.")])
      else fun w =>
             match verifyIdToken t w with
             | (Ok decodedToken, w') => next decodedToken w'
             | (Throw error, w') =>
                 (handleError error "Invalid or expired token.", w')
             end
  | _ => respond 401 (JObj [("message", JStr "No token provided.")])
  end.

(** [app.METHOD(path, verifyToken, handler)]: a protected route. *)
Definition protected (handler : DecodedToken -> Request -> Handler)
    (req : Request) : Handler :=
  verifyToken req (fun user => handler user req).

Section Server.

(** [process.env.APP_ID || 'gradious-loan-app-default'] *)
Variable APP_ID : string.

(** [db.collection('artifacts').doc(APP_ID).collection('users')] *)
Definition users : Path := ["artifacts"; APP_ID; "users"].

(** [db.collection('artifacts').doc(APP_ID).collection('public').doc('data')
      .collection('allApplications')] *)
Definition allApplications : Path :=
  ["artifacts"; APP_ID; "public"; "data"; "allApplications"].

(** The per-user copy and the global copy of the application [id] owned by
    [userId]. *)
Definition userCopy (userId id : string) : Path :=
  users ++ [userId; "loanApplications"; id].
Definition globalCopy (id : string) : Path := allApplications ++ [id].

(** POST /api/signup *)
Definition signup (req : Request) : Handler :=
  let email := prop (body req) "email" in
  let password := prop (body req) "password" in
  let mobile := prop (body req) "mobile" in
  if negb (truthy email) || negb (truthy password) || negb (truthy mobile)
  then respond 400
         (JObj [("message", JStr "Email, password, and mobile are required.")])
  else
    try_respond
      (let! userRecord := createUser (mkUserProps email password mobile) in
       let! userRef := doc users (JStr userRecord) in
       do! set_doc userRef [("email", WVal email);
                            ("mobile", WVal mobile);
                            ("createdAt", WServerTimestamp)] in
       ret (mkResponse 201
              (JObj [("message", JStr "User created successfully!");
                     ("uid", JStr userRecord)])))
      (fun error =>
         match code error with
         | JStr c =>
             if String.eqb c "auth/email-already-in-use"
             then mkResponse 409
                    (JObj [("message", JStr "Email already registered.")])
             else handleError error "Error creating user"
         | _ => handleError error "Error creating user"
         end).

(** The fields that both copies of a new application are written with. *)
Definition application_fields (userId : string) (b : gmap string JsVal)
  : list (string * WField) :=
  [("userId", WVal (JStr userId));
   ("loanType", WVal (prop b "loanType"));
   ("purpose", WVal (prop b "purpose"));
   ("panNumber", WVal (prop b "panNumber"));
   ("requestedLoanAmount", WVal (prop b "requestedLoanAmount"));
   ("monthlyEmi", WVal (prop b "monthlyEmi"));
   ("totalInterest", WVal (prop b "totalInterest"));
   ("principalAmount", WVal (prop b "principalAmount"));
   ("totalAmountPayable", WVal (prop b "totalAmountPayable"));
   ("idProofFileName", WVal (prop b "idProofFileName"));
   ("status", WVal (JStr "Pending"));
   ("appliedDate", WServerTimestamp)].

(** POST /api/apply-loan, after verifyToken *)
Definition apply_loan (user : DecodedToken) (req : Request) : Handler :=
  let loanType := prop (body req) "loanType" in
  let purpose := prop (body req) "purpose" in
  let panNumber := prop (body req) "panNumber" in
  let requestedLoanAmount := prop (body req) "requestedLoanAmount" in
  let userId := uid user in
  if negb (truthy loanType) || negb (truthy purpose) || negb (truthy panNumber)
     || negb (truthy requestedLoanAmount)
  then respond 400
         (JObj [("message", JStr "Missing required loan application fields.")])
  else
    try_respond
      (let! userRef := doc users (JStr userId) in
       let! loanApplicationRef :=
         add (userRef ++ ["loanApplications"])
             (application_fields userId (body req)) in
       let! centralRef := doc allApplications (JStr loanApplicationRef) in
       do! set_doc centralRef
             (application_fields userId (body req)
                ++ [("applicationId", WVal (JStr loanApplicationRef))]) in
       ret (mkResponse 201
              (JObj [("message", JStr "Loan application submitted successfully!");
                     ("applicationId", JStr loanApplicationRef)])))
      (fun error => handleError error "Error submitting loan application").

(** PUT /api/admin/applications/:id/status, after verifyToken *)
Definition update_status (user : DecodedToken) (req : Request) : Handler :=
  let id := params_id req in
  let status := prop (body req) "status" in
  let repayment := prop (body req) "repayment" in
  if negb (truthy status)
  then respond 400 (JObj [("message", JStr "Status is required.")])
  else
    try_respond
      (let! centralAppRef := doc allApplications (JStr id) in
       do! update centralAppRef
             [("status", status); ("repayment", js_or repayment JNull)] in
       let! appData := get_data centralAppRef in
       do! match appData with
           | Some d =>
               if truthy (field d "userId")
               then
                 let! userRef := doc users (field d "userId") in
                 let! appRef := doc (userRef ++ ["loanApplications"]) (JStr id) in
                 update appRef
                   [("status", status); ("repayment", js_or repayment JNull)]
               else ret tt
           | None => ret tt
           end in
       let! text := interpolate status in
       ret (mkResponse 200
              (JObj [("message",
                      JStr (String.append "Application "
                             (String.append id
                                (String.append " status updated to "
                                   (String.append text ".")))))])))
      (fun error => handleError error "Error updating application status").

(** The routes as [app.post] and [app.put] register them: the protected
    ones run verifyToken first. *)
Definition route_signup (req : Request) : Handler := signup req.
Definition route_apply_loan (req : Request) : Handler :=
  protected apply_loan req.
Definition route_update_status (req : Request) : Handler :=
  protected update_status req.

End Server.

(** ** Vocabulary of the properties *)

(** The store and the identity provider fail none of the next [k] calls. *)
Definition accepts (w : World) (k : nat) : Prop :=
  forall i, i < k -> fault (env w (length (trace w) + i)) = None.

(** [d'] differs from [d] at most in its status and repayment fields. *)
Definition same_but_status (d d' : Doc) : Prop :=
  forall k, k <> "status" -> k <> "repayment" -> d' !! k = d !! k.

(** No document was created or deleted from [m] to [m'], and each one
    differs at most in its status and repayment fields. *)
Definition only_status_changed (m m' : gmap Path Doc) : Prop :=
  forall p, match m !! p with
            | None => m' !! p = None
            | Some d => exists d', m' !! p = Some d' /\ same_but_status d d'
            end.

Definition no_token_response : Response :=
  mkResponse 401 (JObj [("message", JStr "No token provided.")]).

(** ** Sample inputs *)

Definition ev_ok : Event := mkEvent 1 None "X1".

(** An empty store, one valid token, and an environment that serves every
    call after one unit of time and generates the identifier X1. *)
Definition w_empty : World :=
  mkWorld ∅ ∅ {["tok" := "u1"]} 100 [] (fun _ => ev_ok).

Definition req_apply : Request :=
  mkRequest (Some "Bearer tok") ""
    (list_to_map [("loanType", JStr "Personal"); ("purpose", JStr "Medical");
                  ("panNumber", JStr "ABCDE1234F");
                  ("requestedLoanAmount", JNum 50000);
                  ("monthlyEmi", JNum 4442);
                  ("totalInterest", JNum 3304);
                  ("principalAmount", JNum 50000);
                  ("totalAmountPayable", JNum 53304);
                  ("idProofFileName", JStr "pan.pdf");
                  ("status", JStr "Approved")]).

(** The same submission without its optional fields. *)
Definition req_required_only : Request :=
  mkRequest (Some "Bearer tok") ""
    (list_to_map [("loanType", JStr "Personal"); ("purpose", JStr "Medical");
                  ("panNumber", JStr "ABCDE1234F");
                  ("requestedLoanAmount", JNum 50000)]).

Definition req_anonymous : Request := mkRequest None "X1" ∅.
Definition req_bad_token : Request := mkRequest (Some "Bearer bad") "X1" ∅.
Definition req_no_fields : Request := mkRequest (Some "Bearer tok") "X1" ∅.

Definition req_approve : Request :=
  mkRequest (Some "Bearer tok") "X1"
    (list_to_map [("status", JStr "Approved"); ("repayment", JStr "Paid")]).

Definition req_odd_status : Request :=
  mkRequest (Some "Bearer tok") "X1"
    (list_to_map [("status", JStr "Frozen"); ("repayment", JNum 0)]).

(** The world after the sample application was submitted. *)
Definition w_applied : World := snd (route_apply_loan "app" req_apply w_empty).

(** verifyToken lets the request through: its bearer token [t] verifies,
    giving the decoded token [user] and the world [w1] in which the handler
    starts. *)
Definition verified (req : Request) (w : World) (t : string)
    (user : DecodedToken) (w1 : World) : Prop :=
  idToken_of req = JStr t /\ truthy (JStr t) = true
  /\ verifyIdToken t w = (Ok user, w1).

(** The request carries the field [k]: it is not [undefined]. *)
Definition carries (req : Request) (k : string) : Prop :=
  prop (body req) k <> JUndefined.

(** The request carries the five optional fields of an application. *)
Definition carries_optional (req : Request) : Prop :=
  carries req "monthlyEmi" /\ carries req "totalInterest"
  /\ carries req "principalAmount" /\ carries req "totalAmountPayable"
  /\ carries req "idProofFileName".

(** A required field is missing ([undefined]) or otherwise falsy. *)
Definition lacks (req : Request) (k : string) : Prop :=
  truthy (prop (body req) k) = false.

(** ** The runs of a status update *)

Section StatusRuns.

Variable APP_ID : string.
Variable req : Request.

(** What the status update writes into a copy. *)
Definition status_data : list (string * JsVal) :=
  [("status", prop (body req) "status");
   ("repayment", js_or (prop (body req) "repayment") JNull)].

(** The answer of an update that went through, for a status whose string
    is [text]. *)
Definition status_updated_to (text : string) : Response :=
  mkResponse 200
    (JObj [("message",
            JStr (String.append "Application "
                   (String.append (params_id req)
                      (String.append " status updated to "
                         (String.append text ".")))))]).

(** The answer of an update that went through, for a status that has a
    string. *)
Definition status_updated : Response :=
  status_updated_to (default "" (to_string (prop (body req) "status"))).

Definition status_failed (e : Error) : Response :=
  handleError e "Error updating application status".

(** The answer once the writes are done: the message, or the error answer
    for a status that cannot be put into it. *)
Definition status_answer : Response :=
  match to_string (prop (body req) "status") with
  | Some text => status_updated_to text
  | None => status_failed cannot_convert
  end.

(** The world once the global copy [d] has been updated, and once it has
    then been read back. *)
Definition after_global (d : Doc) (w : World) : World :=
  set_docs (insert (globalCopy APP_ID (params_id req)) (patch status_data d))
    (called (Update (globalCopy APP_ID (params_id req))) w).

Definition after_get (d : Doc) (w : World) : World :=
  called (Get (globalCopy APP_ID (params_id req))) (after_global d w).

Definition after_user (d : Doc) (u : string) (w : World) : World :=
  called (Update (userCopy APP_ID u (params_id req))) (after_get d w).

(** The ways a status update with a status can go, each with its answer
    and the world it leaves. *)
Inductive StatusRun (w : World) : Response -> World -> Prop :=
| run_bad_id :
    forall (Hid : params_id req = ""),
    StatusRun w (status_failed invalid_path) w
| run_global_fault e :
    forall (Hid : params_id req <> "")
    (F0 : fault (next_event w) = Some e),
    StatusRun w (status_failed e)
      (called (Update (globalCopy APP_ID (params_id req))) w)
| run_global_missing :
    forall (Hid : params_id req <> "")
    (F0 : fault (next_event w) = None)
    (Hg : docs w !! globalCopy APP_ID (params_id req) = None),
    StatusRun w (status_failed not_found)
      (called (Update (globalCopy APP_ID (params_id req))) w)
| run_get_fault d e :
    forall (Hid : params_id req <> "")
    (F0 : fault (next_event w) = None)
    (Hg : docs w !! globalCopy APP_ID (params_id req) = Some d)
    (F1 : fault (next_event (after_global d w)) = Some e),
    StatusRun w (status_failed e) (after_get d w)
| run_no_owner d :
    forall (Hid : params_id req <> "")
    (F0 : fault (next_event w) = None)
    (Hg : docs w !! globalCopy APP_ID (params_id req) = Some d)
    (F1 : fault (next_event (after_global d w)) = None)
    (Hu : truthy (field d "userId") = false),
    StatusRun w status_answer (after_get d w)
| run_owner_invalid d :
    forall (Hid : params_id req <> "")
    (F0 : fault (next_event w) = None)
    (Hg : docs w !! globalCopy APP_ID (params_id req) = Some d)
    (F1 : fault (next_event (after_global d w)) = None)
    (Hu : truthy (field d "userId") = true)
    (Hns : forall u, field d "userId" <> JStr u),
    StatusRun w (status_failed invalid_path) (after_get d w)
| run_user_fault d u e :
    forall (Hid : params_id req <> "")
    (F0 : fault (next_event w) = None)
    (Hg : docs w !! globalCopy APP_ID (params_id req) = Some d)
    (F1 : fault (next_event (after_global d w)) = None)
    (Hu : field d "userId" = JStr u) (Hne : u <> "")
    (F2 : fault (next_event (after_get d w)) = Some e),
    StatusRun w (status_failed e) (after_user d u w)
| run_user_missing d u :
    forall (Hid : params_id req <> "")
    (F0 : fault (next_event w) = None)
    (Hg : docs w !! globalCopy APP_ID (params_id req) = Some d)
    (F1 : fault (next_event (after_global d w)) = None)
    (Hu : field d "userId" = JStr u) (Hne : u <> "")
    (F2 : fault (next_event (after_get d w)) = None)
    (Hc : docs w !! userCopy APP_ID u (params_id req) = None),
    StatusRun w (status_failed not_found) (after_user d u w)
| run_synced d u d' :
    forall (Hid : params_id req <> "")
    (F0 : fault (next_event w) = None)
    (Hg : docs w !! globalCopy APP_ID (params_id req) = Some d)
    (F1 : fault (next_event (after_global d w)) = None)
    (Hu : field d "userId" = JStr u) (Hne : u <> "")
    (F2 : fault (next_event (after_get d w)) = None)
    (Hc : docs w !! userCopy APP_ID u (params_id req) = Some d'),
    StatusRun w status_answer
      (set_docs (insert (userCopy APP_ID u (params_id req)) (patch status_data d'))
         (after_user d u w)).

End StatusRuns.

(** The calls issued from world [w] to world [w']. *)
Definition calls_since (w w' : World) : list Call :=
  drop (length (trace w)) (trace w').

Definition status_required : Response :=
  mkResponse 400 (JObj [("message", JStr "Status is required.")]).

(** The store calls of a status update on the application [id] owned by
    [u], in the order the specification gives (read, write, write) and in
    the order of server.js (write, read back, write). *)
Definition order_of_spec (APP_ID id u : string) : list Call :=
  [Get (globalCopy APP_ID id); Update (globalCopy APP_ID id);
   Update (userCopy APP_ID u id)].
Definition order_of_code (APP_ID id u : string) : list Call :=
  [Update (globalCopy APP_ID id); Get (globalCopy APP_ID id);
   Update (userCopy APP_ID u id)].

(** ** The run of an accepted application *)

Section ApplyRuns.

Variable APP_ID : string.
Variable user : DecodedToken.
Variable req : Request.

Definition application_submitted (id : string) : Response :=
  mkResponse 201
    (JObj [("message", JStr "Loan application submitted successfully!");
           ("applicationId", JStr id)]).

(** What the two writes of an application carry. *)
Definition user_data : list (string * WField) :=
  application_fields (uid user) (body req).
Definition global_data (id : string) : list (string * WField) :=
  application_fields (uid user) (body req)
    ++ [("applicationId", WVal (JStr id))].

(** The identifier the store generates for the application submitted in
    [w], the world once the per-user copy has been added, and the world
    once the global copy has been set. *)
Definition new_id (w : World) : string := fresh (next_event w).

Definition after_add (w : World) : World :=
  let w1 := called (Add (users APP_ID ++ [uid user; "loanApplications"])) w in
  set_docs (insert (userCopy APP_ID (uid user) (new_id w))
              (stored (clock w1) user_data)) w1.

Definition after_set (w : World) : World :=
  let w3 := called (Set_ (globalCopy APP_ID (new_id w))) (after_add w) in
  set_docs (insert (globalCopy APP_ID (new_id w))
              (stored (clock w3) (global_data (new_id w)))) w3.

End ApplyRuns.

(** ** Listing the applications *)

(** [doc.data()] of one stored field: a timestamp reads as a Timestamp
    object. *)
Definition field_value (f : Field) : JsVal :=
  match f with
  | FVal v => v
  | FTimestamp t =>
      JObj [("_seconds", JNum (Z.of_nat t)); ("_nanoseconds", JNum 0)]
  end.

(** The identifier under which the path [p] is a document of
    [collection], if it is one. *)
Definition child_id (collection p : Path) : option string :=
  if decide (take (length collection) p = collection)
  then match drop (length collection) p with
       | [id] => Some id
       | _ => None
       end
  else None.

(** Documents come back ordered by identifier. *)
Definition id_le (a b : string * Doc) : Prop :=
  String.leb (fst a) (fst b) = true.

#[global] Instance id_le_dec (a b : string * Doc) : Decision (id_le a b) :=
  decide (String.leb (fst a) (fst b) = true).

(** The documents of a collection in a store, each with its identifier. *)
Definition collection_docs (collection : Path) (m : gmap Path Doc)
  : list (string * Doc) :=
  merge_sort id_le
    (omap (fun pd => match child_id collection (fst pd) with
                     | Some id => Some (id, snd pd)
                     | None => None
                     end)
          (map_to_list m)).

(** [(await collection.get()).docs] *)
Definition get_docs (collection : Path) : M (list (string * Doc)) :=
  do! external (Get collection) in
  fun w => (Ok (collection_docs collection (docs w)), w).

(** [{ id: doc.id, ...doc.data() }]: the fields of the document, and its
    identifier under [id] unless the document has a field of that name. *)
Definition application_object (d : string * Doc) : gmap string JsVal :=
  (field_value <$> snd d) ∪ {["id" := JStr (fst d)]}.

(** The object as [res.json] receives it; its properties are enumerated in
    the order of the map. *)
Definition to_json (o : gmap string JsVal) : JsVal := JObj (map_to_list o).

(** The answer of a listing that found the documents [apps]. *)
Definition listing (apps : list (string * Doc)) : Response :=
  mkResponse 200 (JArr (map to_json (map application_object apps))).

Section Listing.

Variable APP_ID : string.

(** GET /api/loan-status, after verifyToken *)
Definition loan_status (user : DecodedToken) (req : Request) : Handler :=
  let userId := uid user in
  try_respond
    (let! userRef := doc (users APP_ID) (JStr userId) in
     let! snapshot := get_docs (userRef ++ ["loanApplications"]) in
     let applications := map application_object snapshot in
     ret (mkResponse 200 (JArr (map to_json applications))))
    (fun error => handleError error "Error fetching loan status").

(** GET /api/admin/applications, after verifyToken *)
Definition admin_applications (user : DecodedToken) (req : Request) : Handler :=
  try_respond
    (let! snapshot := get_docs (allApplications APP_ID) in
     let applications := map application_object snapshot in
     ret (mkResponse 200 (JArr (map to_json applications))))
    (fun error =>
       handleError error "Error fetching all loan applications for admin").

Definition route_loan_status (req : Request) : Handler :=
  protected loan_status req.
Definition route_admin_applications (req : Request) : Handler :=
  protected admin_applications req.

End Listing.

(** ** Vocabulary of the further properties *)

(** From [w] to [w'] nothing was taken away: every document and every
    account is still there, the valid tokens and the environment are the
    same, the server clock did not go back, and the calls issued before are
    the first calls of the trace. *)
Definition evolves (w w' : World) : Prop :=
  (forall p, is_Some (docs w !! p) -> is_Some (docs w' !! p))
  /\ (forall u, is_Some (accounts w !! u) -> is_Some (accounts w' !! u))
  /\ tokens w' = tokens w
  /\ env w' = env w
  /\ clock w <= clock w'
  /\ trace w `prefix_of` trace w'.

(** A computation that takes nothing away, however it ends. *)
Definition keeps {A : Type} (c : M A) : Prop :=
  forall w r w', c w = (r, w') -> evolves w w'.

(** The error code for which signup answers 409. *)
Definition email_in_use (e : Error) : Prop :=
  code e = JStr "auth/email-already-in-use".

Definition email_registered : Response :=
  mkResponse 409 (JObj [("message", JStr "Email already registered.")]).

Definition user_created (uid : string) : Response :=
  mkResponse 201 (JObj [("message", JStr "User created successfully!");
                        ("uid", JStr uid)]).

(** What signup writes into the profile document. *)
Definition profile_data (req : Request) : list (string * WField) :=
  [("email", WVal (prop (body req) "email"));
   ("mobile", WVal (prop (body req) "mobile"));
   ("createdAt", WServerTimestamp)].

(** What signup registers with the identity provider. *)
Definition signup_props (req : Request) : UserProps :=
  mkUserProps (prop (body req) "email") (prop (body req) "password")
    (prop (body req) "mobile").

(** [sep] occurs somewhere in [s]. *)
Definition occurs (sep s : string) : Prop :=
  exists a b, s = String.append a (String.append sep b).

(** [s.includes(sep)]: the test that decides [occurs]. *)
Fixpoint includes (sep s : string) : bool :=
  String.prefix sep s
  || match s with
     | EmptyString => false
     | String _ s' => includes sep s'
     end.

(** ** Further sample inputs *)

Definition req_signup : Request :=
  mkRequest None ""
    (list_to_map [("email", JStr "a@b.c"); ("password", JStr "secret");
                  ("mobile", JStr "+911234567890")]).

(** Environments that fail the first call, or the second, with [e]. *)
Definition w_failing_first (e : Error) : World :=
  mkWorld ∅ ∅ {["tok" := "u1"]} 100 []
    (fun n => match n with
              | 0 => mkEvent 1 (Some e) "X1"
              | _ => ev_ok
              end).

Definition w_failing_second (e : Error) : World :=
  mkWorld ∅ ∅ {["tok" := "u1"]} 100 []
    (fun n => match n with
              | 1 => mkEvent 1 (Some e) "X1"
              | _ => ev_ok
              end).

Definition unavailable : Error := mkError (JNum 14) "UNAVAILABLE".
Definition duplicate_email : Error :=
  mkError (JStr "auth/email-already-in-use") "The email address is in use.".

(** A store with a global copy that names the owner u9, under whom there is
    no copy. *)
Definition w_orphan : World :=
  mkWorld {[ globalCopy "app" "X1" := {[ "userId" := FVal (JStr "u9") ]} ]}
    ∅ {["tok" := "u1"]} 100 [] (fun _ => ev_ok).

Definition req_revert : Request :=
  mkRequest (Some "Bearer tok") "X1"
    (list_to_map [("status", JStr "Pending")]).

(** The request lacks one of the five optional fields of an application:
    reading it gives [undefined]. *)
Definition lacks_optional (req : Request) : Prop :=
  prop (body req) "monthlyEmi" = JUndefined
  \/ prop (body req) "totalInterest" = JUndefined
  \/ prop (body req) "principalAmount" = JUndefined
  \/ prop (body req) "totalAmountPayable" = JUndefined
  \/ prop (body req) "idProofFileName" = JUndefined.

(** * Properties *)

(** ** The external calls *)

(** Verifying a token never touches documents or accounts, and issues
    exactly one call. *)
Lemma verifyIdToken_frame (t : string) (w w' : World) (r : Result DecodedToken) :
  verifyIdToken t w = (r, w') ->
  w' = called (VerifyIdToken t) w.
Proof.
  unfold verifyIdToken, bind, external. intros H.
  destruct (fault (next_event w)); [congruence|].
  cbn in H. destruct (tokens w !! t); congruence.
Qed.

Lemma verifyIdToken_Ok (t : string) (w w' : World) (d : DecodedToken) :
  verifyIdToken t w = (Ok d, w') ->
  fault (next_event w) = None /\ tokens w !! t = Some (uid d).
Proof.
  unfold verifyIdToken, bind, external. intros H.
  destruct (fault (next_event w)); [congruence|].
  cbn in H. destruct (tokens w !! t); [|congruence].
  inversion H; subst. auto.
Qed.

(** ** The bearer token *)

Example idToken_bearer :
  idToken_of (mkRequest (Some "Bearer tok") "" ∅) = JStr "tok".
Proof. reflexivity. Qed.

Example idToken_other_scheme :
  idToken_of (mkRequest (Some "Basic dXNlcg==") "" ∅) = JUndefined.
Proof. reflexivity. Qed.

Example idToken_empty :
  truthy (idToken_of (mkRequest (Some "Bearer ") "" ∅)) = false.
Proof. reflexivity. Qed.

Example idToken_absent : idToken_of (mkRequest None "" ∅) = JUndefined.
Proof. reflexivity. Qed.

Lemma protected_no_token
    (handler : DecodedToken -> Request -> Handler) (req : Request) (w : World) :
  truthy (idToken_of req) = false ->
  protected handler req w = (no_token_response, w).
Proof.
  intros Hno. unfold protected, verifyToken.
  destruct (idToken_of req); try reflexivity. now rewrite Hno.
Qed.

(** The three ways through verifyToken: no token, a token that fails
    verification, a token that verifies. *)
Lemma protected_cases (handler : DecodedToken -> Request -> Handler)
    (req : Request) (w : World) :
  protected handler req w = (no_token_response, w)
  \/ (exists t e, protected handler req w
                  = (handleError e "Invalid or expired token.",
                     called (VerifyIdToken t) w))
  \/ (exists t user, protected handler req w
                     = handler user req (called (VerifyIdToken t) w)).
Proof.
  destruct (truthy (idToken_of req)) eqn:Tk.
  - destruct (idToken_of req) as [| |b|n|t|l|o] eqn:Ht;
      try (left; unfold protected, verifyToken; now rewrite Ht).
    right. unfold protected, verifyToken. rewrite Ht, Tk. cbn [negb].
    destruct (verifyIdToken t w) as [[user|e] w1] eqn:Hv;
      rewrite (verifyIdToken_frame _ _ _ _ Hv).
    + right. now exists t, user.
    + left. now exists t, e.
  - left. now apply protected_no_token.
Qed.

(** ** Rejection by verifyToken (C7) *)

(** C7. On a protected route, whatever the handler behind it: a request
    without a bearer token is answered 401 and leaves the world as it was
    (no call is issued at all); a request whose token fails verification is
    answered through handleError, that is with status 500, and the world
    after it differs from the one before only by the verification call:
    documents and accounts are untouched.  The answer does not depend on
    the handler, which therefore did not run. *)
Theorem protected_rejects
    (handler : DecodedToken -> Request -> Handler) (req : Request) (w : World) :
  (truthy (idToken_of req) = false ->
     protected handler req w = (no_token_response, w))
  /\
  (forall t e w',
     idToken_of req = JStr t -> truthy (JStr t) = true ->
     verifyIdToken t w = (Throw e, w') ->
     protected handler req w = (handleError e "Invalid or expired token.", w')
     /\ statusCode (handleError e "Invalid or expired token.") = 500
     /\ docs w' = docs w /\ accounts w' = accounts w
     /\ trace w' = trace w ++ [VerifyIdToken t]).
Proof.
  split.
  - apply protected_no_token.
  - unfold protected, verifyToken.
    intros t e w' Ht Htr Hv. rewrite Ht, Htr. cbn. rewrite Hv.
    apply verifyIdToken_frame in Hv. subst w'. now cbn.
Qed.

Lemma protected_rejects_witness :
  protected (apply_loan "app") req_anonymous w_empty
    = (no_token_response, w_empty)
  /\ protected (update_status "app") req_bad_token w_empty
     = (handleError invalid_token "Invalid or expired token.",
        called (VerifyIdToken "bad") w_empty).
Proof.
  split.
  - apply (proj1 (protected_rejects (apply_loan "app") req_anonymous w_empty)).
    reflexivity.
  - eapply (proj2 (protected_rejects (update_status "app") req_bad_token w_empty));
      reflexivity.
Defined.

Lemma protected_verified
    (handler : DecodedToken -> Request -> Handler) (req : Request)
    (w : World) (t : string) (user : DecodedToken) (w1 : World) :
  verified req w t user w1 ->
  protected handler req w = handler user req w1.
Proof.
  intros (Ht & Htr & Hv). unfold protected, verifyToken.
  rewrite Ht, Htr. cbn [negb]. now rewrite Hv.
Qed.

Lemma verified_frame (req : Request) (w : World) (t : string)
    (user : DecodedToken) (w1 : World) :
  verified req w t user w1 ->
  w1 = called (VerifyIdToken t) w /\ tokens w !! t = Some (uid user).
Proof.
  intros (_ & _ & Hv). split.
  - eapply verifyIdToken_frame, Hv.
  - eapply verifyIdToken_Ok, Hv.
Qed.

(** ** Validation of required fields (C8) *)

(** C8 as the spec words it fails on the protected routes: a request that
    lacks a required field and carries no bearer token is answered 401, not
    400; and one that carries a valid token has that token verified by the
    identity provider before the fields are looked at. *)
Lemma missing_field_answer_depends_on_token :
  lacks req_anonymous "loanType"
  /\ statusCode (fst (route_apply_loan "app" req_anonymous w_empty)) = 401
  /\ lacks req_no_fields "loanType"
  /\ trace (snd (route_apply_loan "app" req_no_fields w_empty))
     = [VerifyIdToken "tok"].
Proof. repeat split. Qed.

(** C8, amended.  A signup request that lacks email, password or mobile is
    answered 400 and the world is exactly as before: no call to the
    identity provider or to the store was issued.  An apply-loan request
    that lacks loanType, purpose, panNumber or requestedLoanAmount, and a
    status update that lacks status, are answered 400 once verifyToken has
    let them through; the only call issued is that verification of the
    token, and documents and accounts are unchanged. *)
Theorem missing_field_rejected (APP_ID : string) (req : Request) (w : World) :
  (lacks req "email" \/ lacks req "password" \/ lacks req "mobile" ->
     route_signup APP_ID req w
     = (mkResponse 400
          (JObj [("message", JStr "Email, password, and mobile are required.")]),
        w))
  /\
  (forall t user w1,
     verified req w t user w1 ->
     lacks req "loanType" \/ lacks req "purpose" \/ lacks req "panNumber"
       \/ lacks req "requestedLoanAmount" ->
     route_apply_loan APP_ID req w
     = (mkResponse 400
          (JObj [("message", JStr "Missing required loan application fields.")]),
        w1)
     /\ docs w1 = docs w /\ accounts w1 = accounts w
     /\ trace w1 = trace w ++ [VerifyIdToken t])
  /\
  (forall t user w1,
     verified req w t user w1 ->
     lacks req "status" ->
     route_update_status APP_ID req w
     = (mkResponse 400 (JObj [("message", JStr "Status is required.")]), w1)
     /\ docs w1 = docs w /\ accounts w1 = accounts w
     /\ trace w1 = trace w ++ [VerifyIdToken t]).
Proof.
  unfold lacks. repeat split.
  - intros H. unfold route_signup, signup.
    destruct H as [H | [H | H]]; rewrite H; cbn;
      rewrite ?orb_true_r; reflexivity.
  - unfold route_apply_loan. rewrite (protected_verified _ _ _ _ _ _ H).
    unfold apply_loan.
    destruct H0 as [H0 | [H0 | [H0 | H0]]]; rewrite H0; cbn;
      rewrite ?orb_true_r; reflexivity.
  - apply verified_frame in H as [-> _]. reflexivity.
  - apply verified_frame in H as [-> _]. reflexivity.
  - apply verified_frame in H as [-> _]. reflexivity.
  - unfold route_update_status. rewrite (protected_verified _ _ _ _ _ _ H).
    unfold update_status. rewrite H0. reflexivity.
  - apply verified_frame in H as [-> _]. reflexivity.
  - apply verified_frame in H as [-> _]. reflexivity.
  - apply verified_frame in H as [-> _]. reflexivity.
Qed.

Lemma missing_field_rejected_witness :
  statusCode (fst (route_signup "app" req_no_fields w_empty)) = 400
  /\ statusCode (fst (route_apply_loan "app" req_no_fields w_empty)) = 400
  /\ statusCode (fst (route_update_status "app" req_no_fields w_empty)) = 400
  /\ docs (snd (route_apply_loan "app" req_no_fields w_empty)) = docs w_empty.
Proof.
  pose proof (missing_field_rejected "app" req_no_fields w_empty)
    as (Hs & Ha & Hu).
  assert (Hv : verified req_no_fields w_empty "tok" (mkDecoded "u1")
                 (called (VerifyIdToken "tok") w_empty))
    by (repeat split).
  assert (Hl : forall k, lacks req_no_fields k) by (intro k; reflexivity).
  specialize (Hs (or_introl (Hl "email"))).
  destruct (Ha _ _ _ Hv (or_introl (Hl "loanType"))) as (Ea & Da & _).
  destruct (Hu _ _ _ Hv (Hl "status")) as (Eu & _).
  rewrite Hs, Ea, Eu. repeat split.
Defined.

(** ** Paths *)

Lemma userCopy_neq_globalCopy (APP_ID u i j : string) :
  userCopy APP_ID u i <> globalCopy APP_ID j.
Proof. unfold userCopy, globalCopy, users, allApplications. cbn. congruence. Qed.

Lemma doc_users (APP_ID u i : string) :
  ((users APP_ID ++ [u]) ++ ["loanApplications"]) ++ [i] = userCopy APP_ID u i.
Proof. reflexivity. Qed.

(** ** Patching a document *)

Lemma patch_status_lookup (s r : JsVal) (d : Doc) :
  patch [("status", s); ("repayment", r)] d !! "status" = Some (FVal s)
  /\ patch [("status", s); ("repayment", r)] d !! "repayment" = Some (FVal r).
Proof.
  unfold patch; cbn. split.
  - apply lookup_insert_eq.
  - rewrite lookup_insert_ne by discriminate. apply lookup_insert_eq.
Qed.

Lemma patch_status_other (s r : JsVal) (d : Doc) :
  same_but_status d (patch [("status", s); ("repayment", r)] d).
Proof.
  intros k Hs Hr. unfold patch; cbn.
  rewrite !lookup_insert_ne by congruence. reflexivity.
Qed.

Lemma field_patch_userId (s r : JsVal) (d : Doc) :
  field (patch [("status", s); ("repayment", r)] d) "userId" = field d "userId".
Proof.
  unfold field. now rewrite (patch_status_other s r d "userId") by discriminate.
Qed.

Lemma only_status_changed_refl (m : gmap Path Doc) : only_status_changed m m.
Proof.
  intros p. destruct (m !! p) as [d|] eqn:E; [|reflexivity].
  exists d. split; [reflexivity|]. now intros k _ _.
Qed.

Lemma only_status_changed_trans (m1 m2 m3 : gmap Path Doc) :
  only_status_changed m1 m2 -> only_status_changed m2 m3 ->
  only_status_changed m1 m3.
Proof.
  intros H12 H23 p. specialize (H12 p). specialize (H23 p).
  destruct (m1 !! p) as [d1|].
  - destruct H12 as (d2 & E2 & S12). rewrite E2 in H23.
    destruct H23 as (d3 & E3 & S23). exists d3. split; [exact E3|].
    intros k Hs Hr. now rewrite S23, S12.
  - now rewrite H12 in H23.
Qed.

Lemma only_status_changed_patch (m : gmap Path Doc) (p : Path) (d : Doc)
    (s r : JsVal) :
  m !! p = Some d ->
  only_status_changed m (<[p := patch [("status", s); ("repayment", r)] d]> m).
Proof.
  intros Hp q. destruct (decide (p = q)) as [<-|Hne].
  - rewrite Hp, lookup_insert_eq. eexists. split; [reflexivity|].
    apply patch_status_other.
  - rewrite lookup_insert_ne by exact Hne.
    destruct (m !! q) as [dq|]; [|reflexivity].
    exists dq. split; [reflexivity|]. now intros k _ _.
Qed.

(** ** Equations of the monad and of the store operations *)

Lemma bind_run {A B} (c : M A) (k : A -> M B) (w : World) :
  bind c k w = match c w with
               | (Ok a, w') => k a w'
               | (Throw e, w') => (Throw e, w')
               end.
Proof. reflexivity. Qed.

Lemma doc_run (collection : Path) (s : string) (w : World) :
  doc collection (JStr s) w
  = if String.eqb s "" then (Throw invalid_path, w)
    else (Ok (collection ++ [s]), w).
Proof. unfold doc. now destruct (String.eqb s ""). Qed.

Lemma update_run (ref : Path) (data : list (string * JsVal)) (w : World) :
  update ref data w
  = match fault (next_event w) with
    | Some e => (Throw e, called (Update ref) w)
    | None =>
        match docs w !! ref with
        | None => (Throw not_found, called (Update ref) w)
        | Some d =>
            (Ok tt, set_docs (insert ref (patch data d)) (called (Update ref) w))
        end
    end.
Proof. unfold update, bind, external. now destruct (fault (next_event w)). Qed.

Lemma get_data_run (ref : Path) (w : World) :
  get_data ref w
  = match fault (next_event w) with
    | Some e => (Throw e, called (Get ref) w)
    | None => (Ok (docs w !! ref), called (Get ref) w)
    end.
Proof. unfold get_data, bind, external. now destruct (fault (next_event w)). Qed.

Lemma add_run (collection : Path) (data : list (string * WField)) (w : World) :
  add collection data w
  = if has_undefined data then (Throw undefined_value, w)
    else
      match fault (next_event w) with
      | Some e => (Throw e, called (Add collection) w)
      | None =>
          let w1 := called (Add collection) w in
          let id := fresh (next_event w) in
          match docs w !! (collection ++ [id]) with
          | Some _ => (Throw already_exists, w1)
          | None =>
              (Ok id,
               set_docs (insert (collection ++ [id]) (stored (clock w1) data)) w1)
          end
      end.
Proof.
  unfold add. destruct (has_undefined data); [reflexivity|].
  unfold bind, external. now destruct (fault (next_event w)).
Qed.

Lemma set_doc_run (ref : Path) (data : list (string * WField)) (w : World) :
  set_doc ref data w
  = if has_undefined data then (Throw undefined_value, w)
    else
      match fault (next_event w) with
      | Some e => (Throw e, called (Set_ ref) w)
      | None =>
          let w1 := called (Set_ ref) w in
          (Ok tt, set_docs (insert ref (stored (clock w1) data)) w1)
      end.
Proof.
  unfold set_doc. destruct (has_undefined data); [reflexivity|].
  unfold bind, external. now destruct (fault (next_event w)).
Qed.

Lemma bind_ret {A B} (a : A) (k : A -> M B) (w : World) :
  bind (ret a) k w = k a w.
Proof. reflexivity. Qed.

Lemma interpolate_run (v : JsVal) (w : World) :
  interpolate v w
  = match to_string v with
    | Some s => (Ok s, w)
    | None => (Throw cannot_convert, w)
    end.
Proof. unfold interpolate. now destruct (to_string v). Qed.

Lemma eqb_empty_false (s : string) : s <> "" -> String.eqb s "" = false.
Proof. intros H. now apply String.eqb_neq. Qed.

Lemma truthy_JStr (s : string) : truthy (JStr s) = true <-> s <> "".
Proof.
  cbn. destruct (String.eqb_spec s ""); cbn; split; congruence.
Qed.

(** ** Running the status update *)

(** The end of a status update: the message is built and sent, or building
    it throws and the catch block answers. *)
Lemma status_answer_run (req : Request) (w : World) :
  try_respond
    (let! text := interpolate (prop (body req) "status") in
     ret (mkResponse 200
            (JObj [("message",
                    JStr (String.append "Application "
                           (String.append (params_id req)
                              (String.append " status updated to "
                                 (String.append text ".")))))])))
    (fun error => handleError error "Error updating application status") w
  = (status_answer req, w).
Proof.
  unfold try_respond, status_answer. rewrite bind_run, interpolate_run.
  now destruct (to_string (prop (body req) "status")).
Qed.

Lemma status_answer_string (req : Request) (s : string) :
  prop (body req) "status" = JStr s -> status_answer req = status_updated req.
Proof. intros H. unfold status_answer, status_updated. now rewrite H. Qed.

(** The answer once the writes are done is the 200 or the 500 of the catch
    block. *)
Lemma status_answer_code (req : Request) :
  (exists text, status_answer req = status_updated_to req text)
  \/ status_answer req = status_failed cannot_convert.
Proof.
  unfold status_answer. destruct (to_string (prop (body req) "status")); eauto.
Qed.

Lemma field_status_data (req : Request) (d : Doc) :
  field (patch (status_data req) d) "userId" = field d "userId".
Proof. apply field_patch_userId. Qed.

(** Every status update that carries a status goes one of the ways of
    [StatusRun]. *)
Lemma update_status_run (APP_ID : string) (user : DecodedToken) (req : Request)
    (w : World) :
  truthy (prop (body req) "status") = true ->
  StatusRun APP_ID req w (fst (update_status APP_ID user req w))
    (snd (update_status APP_ID user req w)).
Proof.
  intros Hst. unfold update_status. rewrite Hst. cbn [negb].
  unfold try_respond. rewrite bind_run, doc_run.
  destruct (String.eqb_spec (params_id req) "") as [Hid|Hid].
  { cbn. now apply run_bad_id. }
  rewrite bind_run, update_run.
  fold (globalCopy APP_ID (params_id req)). fold (status_data req).
  destruct (fault (next_event w)) as [e|] eqn:F0.
  { cbn. now apply run_global_fault. }
  destruct (docs w !! globalCopy APP_ID (params_id req)) as [d|] eqn:G.
  2:{ cbn. now apply run_global_missing. }
  fold (after_global APP_ID req d w).
  rewrite bind_run, get_data_run.
  destruct (fault (next_event (after_global APP_ID req d w))) as [e|] eqn:F1.
  { cbn. now apply (run_get_fault APP_ID req w d e). }
  fold (after_get APP_ID req d w).
  assert (Hread : docs (after_global APP_ID req d w) !! globalCopy APP_ID (params_id req)
                  = Some (patch (status_data req) d))
    by (cbn; apply lookup_insert_eq).
  rewrite Hread, bind_run.
  rewrite !field_status_data.
  destruct (truthy (field d "userId")) eqn:Tu.
  2:{ cbv beta iota delta [ret]. rewrite bind_run, interpolate_run.
      pose proof (run_no_owner APP_ID req w d Hid F0 G F1 Tu) as R.
      unfold status_answer in R.
      now destruct (to_string (prop (body req) "status")). }
  rewrite bind_run.
  destruct (field d "userId") as [| |b|n|u|l|o] eqn:Fu;
    try (cbn; apply run_owner_invalid; auto; rewrite ?Fu; auto; congruence).
  rewrite doc_run.
  apply truthy_JStr in Tu. rewrite (eqb_empty_false u Tu).
  rewrite bind_run, doc_run, (eqb_empty_false _ Hid).
  rewrite doc_users, update_run. fold (status_data req).
  destruct (fault (next_event (after_get APP_ID req d w))) as [e|] eqn:F2.
  { cbn. now apply (run_user_fault APP_ID req w d u e). }
  assert (Huser : docs (after_get APP_ID req d w) !! userCopy APP_ID u (params_id req)
                  = docs w !! userCopy APP_ID u (params_id req)).
  { cbn. apply lookup_insert_ne. apply not_eq_sym, userCopy_neq_globalCopy. }
  rewrite Huser.
  destruct (docs w !! userCopy APP_ID u (params_id req)) as [d'|] eqn:U.
  - cbv beta iota zeta. rewrite bind_run, interpolate_run.
    pose proof (run_synced APP_ID req w d u d' Hid F0 G F1 Fu Tu F2 U) as R.
    unfold status_answer in R.
    now destruct (to_string (prop (body req) "status")).
  - cbn. now apply (run_user_missing APP_ID req w d u).
Qed.

Lemma update_status_cases (APP_ID : string) (user : DecodedToken)
    (req : Request) (w : World) (resp : Response) (w' : World) :
  update_status APP_ID user req w = (resp, w') ->
  (lacks req "status" /\ resp = status_required /\ w' = w)
  \/ (truthy (prop (body req) "status") = true /\ StatusRun APP_ID req w resp w').
Proof.
  intros H. destruct (truthy (prop (body req) "status")) eqn:Hst.
  - right. split; [reflexivity|].
    pose proof (update_status_run APP_ID user req w Hst) as R.
    now rewrite H in R.
  - left. unfold update_status in H. rewrite Hst in H. cbn in H.
    inversion H; subst. now repeat split.
Qed.

Lemma accepts_0 (w : World) (k : nat) :
  accepts w (S k) -> fault (next_event w) = None.
Proof.
  intros H. specialize (H 0 ltac:(lia)).
  now rewrite Nat.add_0_r in H.
Qed.

Lemma accepts_1 (APP_ID : string) (req : Request) (d : Doc) (w : World) (k : nat) :
  accepts w (S (S k)) ->
  fault (next_event (after_global APP_ID req d w)) = None.
Proof.
  intros H. specialize (H 1 ltac:(lia)).
  unfold next_event, after_global, set_docs, called.
  cbn [trace env]. now rewrite length_app.
Qed.

Lemma accepts_2 (APP_ID : string) (req : Request) (d : Doc) (w : World) (k : nat) :
  accepts w (S (S (S k))) ->
  fault (next_event (after_get APP_ID req d w)) = None.
Proof.
  intros H. specialize (H 2 ltac:(lia)).
  unfold next_event, after_get, after_global, set_docs, called.
  cbn [trace env]. rewrite !length_app. cbn [length].
  now replace (length (trace w) + 1 + 1) with (length (trace w) + 2) by lia.
Qed.

(** Reduce the projections of the worlds a run goes through. *)
Ltac world_simpl :=
  unfold after_user, after_get, after_global, set_docs, set_accounts, called;
  cbn [docs accounts tokens clock trace env fst snd].

(** ** The frame of a status update (C9) *)

(** C9. A status update creates and deletes no document, and changes no
    field of any document other than status and repayment: userId,
    loanType, purpose, panNumber, the amounts, idProofFileName, appliedDate
    and applicationId of both copies are as before.  Accounts are
    untouched. *)
Theorem update_status_frame (APP_ID : string) (user : DecodedToken)
    (req : Request) (w : World) :
  only_status_changed (docs w) (docs (snd (update_status APP_ID user req w)))
  /\ accounts (snd (update_status APP_ID user req w)) = accounts w.
Proof.
  destruct (update_status APP_ID user req w) as [resp w'] eqn:H.
  apply update_status_cases in H as [(_ & _ & ->) | (_ & R)].
  { split; [apply only_status_changed_refl | reflexivity]. }
  cbn [snd].
  destruct R; world_simpl; (split; [|reflexivity]);
    try apply only_status_changed_refl;
    try (now apply only_status_changed_patch).
  apply only_status_changed_trans
    with (m2 := <[globalCopy APP_ID (params_id req) := patch (status_data req) d]>
                  (docs w)).
  - now apply only_status_changed_patch.
  - apply only_status_changed_patch.
    rewrite lookup_insert_ne by (apply not_eq_sym, userCopy_neq_globalCopy).
    eassumption.
Qed.

(** ** Both copies agree after a successful update (C2) *)



(** ** Updating an application that does not exist (C4) *)

(** C4. A status update request for an application that has no global copy
    always gets an answer, the answer is an error (400 without a status, 401
    without a token, 500 otherwise), and the document store afterwards is
    the one before: no document was created in either location. *)
Theorem update_missing_application (APP_ID : string) (req : Request) (w : World) :
  docs w !! globalCopy APP_ID (params_id req) = None ->
  docs (snd (route_update_status APP_ID req w)) = docs w
  /\ (statusCode (fst (route_update_status APP_ID req w)) = 400
      \/ statusCode (fst (route_update_status APP_ID req w)) = 401
      \/ statusCode (fst (route_update_status APP_ID req w)) = 500).
Proof.
  intros Hmiss. unfold route_update_status.
  destruct (protected_cases (update_status APP_ID) req w)
    as [-> | [(t & e & ->) | (t & user & ->)]].
  - cbn. auto.
  - cbn. auto.
  - set (w1 := called (VerifyIdToken t) w).
    assert (Hmiss1 : docs w1 !! globalCopy APP_ID (params_id req) = None)
      by exact Hmiss.
    destruct (update_status APP_ID user req w1) as [resp w'] eqn:H.
    cbn [fst snd].
    apply update_status_cases in H as [(_ & -> & ->) | (_ & R)].
    { cbn. auto. }
    destruct R; try congruence; world_simpl; auto.
Qed.

Lemma update_missing_application_witness :
  docs (snd (route_update_status "app" req_approve w_empty)) = docs w_empty
  /\ statusCode (fst (route_update_status "app" req_approve w_empty)) = 500.
Proof.
  destruct (update_missing_application "app" req_approve w_empty) as [Hd _].
  - reflexivity.
  - split; [exact Hd | reflexivity].
Defined.

(** ** Updates that leave the per-user copy behind (C5) *)

(** C5. When the global copy is missing, or exists but its userId is not a
    non-empty string (absent, null, empty, or no string at all), a status
    update changes no per-user copy, and its answer is one of the ordinary
    ones: the 400 for a missing status, the 200 with the message of a
    successful update, or the handleError answer of the handler (always so
    when the global copy is missing and a status was given).  With a global
    copy whose userId is falsy and a status that is a non-empty string, if
    the store serves the update and the read, the answer is the very 200 of
    a fully synchronised update. *)
Theorem update_status_unsynchronized (APP_ID : string) (user : DecodedToken)
    (req : Request) (w : World) :
  docs w !! globalCopy APP_ID (params_id req) = None
  \/ (exists d, docs w !! globalCopy APP_ID (params_id req) = Some d
                /\ forall u, u <> "" -> field d "userId" <> JStr u) ->
  (forall u i,
     docs (snd (update_status APP_ID user req w)) !! userCopy APP_ID u i
     = docs w !! userCopy APP_ID u i)
  /\ (fst (update_status APP_ID user req w) = status_required
      \/ (exists text,
            fst (update_status APP_ID user req w) = status_updated_to req text)
      \/ exists e, fst (update_status APP_ID user req w) = status_failed e)
  /\ (docs w !! globalCopy APP_ID (params_id req) = None ->
      truthy (prop (body req) "status") = true ->
      exists e, fst (update_status APP_ID user req w) = status_failed e)
  /\ (forall d s,
        docs w !! globalCopy APP_ID (params_id req) = Some d ->
        truthy (field d "userId") = false ->
        prop (body req) "status" = JStr s -> s <> "" ->
        params_id req <> "" -> accepts w 2 ->
        fst (update_status APP_ID user req w) = status_updated req).
Proof.
  intros Hgap.
  destruct (update_status APP_ID user req w) as [resp w'] eqn:H.
  cbn [fst snd].
  apply update_status_cases in H as [(Hl & -> & ->) | (Hst & R)].
  { unfold lacks in Hl. repeat split; auto; intros.
    - congruence.
    - exfalso.
      match goal with
      | Hs : prop (body req) "status" = JStr ?s, Hne : ?s <> "" |- _ =>
          rewrite Hs in Hl; apply truthy_JStr in Hne; congruence
      end. }
  assert (Hown : forall d u, docs w !! globalCopy APP_ID (params_id req) = Some d ->
                             field d "userId" = JStr u -> u <> "" -> False).
  { intros d u Hd Hu Hne. destruct Hgap as [Hn | (d0 & Hd0 & Hf)]; [congruence|].
    assert (d0 = d) by congruence. subst d0. now apply (Hf u). }
  split; [|split; [|split]].
  - destruct R; intros; world_simpl; try reflexivity;
      try (apply lookup_insert_ne, not_eq_sym, userCopy_neq_globalCopy).
    exfalso; eauto.
  - destruct R; eauto;
      destruct (status_answer_code req) as [[text ->] | ->]; eauto.
  - destruct R; intros; eauto; congruence.
  - intros d0 s Hd0 Hfalsy Hs _ Hid' Hacc.
    pose proof (accepts_0 _ _ Hacc) as A0.
    destruct R; try congruence; try (exfalso; eauto; fail).
    + rewrite (accepts_1 APP_ID req d w 0 Hacc) in F1. discriminate.
    + now apply (status_answer_string req s).
Qed.

Lemma update_status_unsynchronized_witness :
  (forall u i,
     docs (snd (update_status "app" (mkDecoded "u1") req_approve w_empty))
       !! userCopy "app" u i
     = docs w_empty !! userCopy "app" u i)
  /\ exists e, fst (update_status "app" (mkDecoded "u1") req_approve w_empty)
                = status_failed e.
Proof.
  destruct (update_status_unsynchronized "app" (mkDecoded "u1") req_approve
              w_empty) as (Hu & _ & He & _).
  - left. reflexivity.
  - split; [exact Hu | apply He; reflexivity].
Defined.

(** ** Any status is accepted (C10) *)

(** C10. A status update with any non-empty status string, on an
    application of which both copies exist and whose global copy names the
    owner, is answered 200 when the store serves its three calls; the status
    of both copies is then that very string, whatever it is, and a falsy
    repayment (absent, empty string, 0, false, null) is stored as null in
    both copies, any other repayment as it was sent. *)
Theorem update_status_any_string (APP_ID : string) (user : DecodedToken)
    (req : Request) (w : World) (s u : string) (d d' : Doc) :
  prop (body req) "status" = JStr s -> s <> "" ->
  params_id req <> "" ->
  docs w !! globalCopy APP_ID (params_id req) = Some d ->
  field d "userId" = JStr u -> u <> "" ->
  docs w !! userCopy APP_ID u (params_id req) = Some d' ->
  accepts w 3 ->
  exists g1 d1,
    fst (update_status APP_ID user req w) = status_updated req
    /\ statusCode (fst (update_status APP_ID user req w)) = 200
    /\ docs (snd (update_status APP_ID user req w))
         !! globalCopy APP_ID (params_id req) = Some g1
    /\ docs (snd (update_status APP_ID user req w))
         !! userCopy APP_ID u (params_id req) = Some d1
    /\ g1 !! "status" = Some (FVal (JStr s))
    /\ d1 !! "status" = Some (FVal (JStr s))
    /\ (truthy (prop (body req) "repayment") = false ->
        g1 !! "repayment" = Some (FVal JNull)
        /\ d1 !! "repayment" = Some (FVal JNull))
    /\ (truthy (prop (body req) "repayment") = true ->
        g1 !! "repayment" = Some (FVal (prop (body req) "repayment"))
        /\ d1 !! "repayment" = Some (FVal (prop (body req) "repayment"))).
Proof.
  intros Ks Ksne Kid Kg Ku Kune Kc Kacc.
  assert (Hst : truthy (prop (body req) "status") = true)
    by (rewrite Ks; now apply truthy_JStr).
  pose proof (update_status_run APP_ID user req w Hst) as R.
  destruct (update_status APP_ID user req w) as [resp w'].
  cbn [fst snd] in *.
  pose proof (accepts_0 _ _ Kacc) as A0.
  pose proof (accepts_1 APP_ID req d w 1 Kacc) as A1.
  pose proof (accepts_2 APP_ID req d w 0 Kacc) as A2.
  pose proof (proj2 (truthy_JStr u) Kune) as Tu.
  destruct R; try congruence;
    try (assert (d0 = d) by congruence; subst d0);
    try congruence;
    try (rewrite Ku in Hu; congruence);
    try (exfalso; now apply (Hns u));
    try (assert (u0 = u) by congruence; subst u0; try congruence).
  assert (d'0 = d') by congruence. subst d'0.
  rewrite (status_answer_string req s Ks).
  exists (patch (status_data req) d), (patch (status_data req) d').
  world_simpl.
  destruct (patch_status_lookup (prop (body req) "status")
              (js_or (prop (body req) "repayment") JNull) d) as [Sg Rg].
  destruct (patch_status_lookup (prop (body req) "status")
              (js_or (prop (body req) "repayment") JNull) d') as [Su Ru].
  fold (status_data req) in Sg, Rg, Su, Ru. rewrite Ks in Sg, Su.
  unfold js_or in Rg, Ru.
  repeat split; try assumption; try reflexivity.
  - rewrite lookup_insert_ne by apply userCopy_neq_globalCopy.
    apply lookup_insert_eq.
  - apply lookup_insert_eq.
  - now rewrite H in Rg.
  - now rewrite H in Ru.
  - now rewrite H in Rg.
  - now rewrite H in Ru.
Qed.

Lemma update_status_any_string_witness :
  exists g1 d1,
    docs (snd (update_status "app" (mkDecoded "u1") req_odd_status w_applied))
      !! globalCopy "app" "X1" = Some g1
    /\ docs (snd (update_status "app" (mkDecoded "u1") req_odd_status w_applied))
         !! userCopy "app" "u1" "X1" = Some d1
    /\ g1 !! "status" = Some (FVal (JStr "Frozen"))
    /\ d1 !! "status" = Some (FVal (JStr "Frozen"))
    /\ g1 !! "repayment" = Some (FVal JNull)
    /\ d1 !! "repayment" = Some (FVal JNull).
Proof.
  destruct (update_status_any_string "app" (mkDecoded "u1") req_odd_status
              w_applied "Frozen" "u1"
              (stored 103 (application_fields "u1" (body req_apply)
                             ++ [("applicationId", WVal (JStr "X1"))]))
              (stored 102 (application_fields "u1" (body req_apply))))
    as (g1 & d1 & _ & _ & Hg & Hd & Sg & Sd & Hnull & _).
  - reflexivity.
  - discriminate.
  - discriminate.
  - reflexivity.
  - reflexivity.
  - discriminate.
  - reflexivity.
  - intros i _. reflexivity.
  - destruct (Hnull eq_refl) as [Rg Rd]. exists g1, d1. auto 10.
Defined.

(** ** The order of the store calls (C3) *)

(** C3 as the spec words it fails: the handler does not read the global
    copy first.  On the sample application it updates the global copy,
    reads it back, and updates the per-user copy; and when the global copy
    is missing it issues the failing update and never reads. *)
Lemma update_status_writes_first :
  calls_since w_applied
    (snd (update_status "app" (mkDecoded "u1") req_approve w_applied))
  = order_of_code "app" "X1" "u1"
  /\ calls_since w_applied
       (snd (update_status "app" (mkDecoded "u1") req_approve w_applied))
     <> order_of_spec "app" "X1" "u1"
  /\ calls_since w_empty
       (snd (update_status "app" (mkDecoded "u1") req_approve w_empty))
     = [Update (globalCopy "app" "X1")].
Proof.
  split; [reflexivity|]. split; [|reflexivity].
  vm_compute. discriminate.
Qed.

(** C3, amended.  The store calls of one status update are issued one
    after the other in this order: the update of the global copy, then the
    read of the global copy, then the update of the copy under the user id
    found in it.  A run stops after a call that fails; the third call is
    issued only if the global copy names an owner; and a run answered 200
    for an application with an owner issued all three. *)
Theorem update_status_call_order (APP_ID : string) (user : DecodedToken)
    (req : Request) (w : World) :
  exists calls,
    trace (snd (update_status APP_ID user req w)) = trace w ++ calls
    /\ (calls = []
        \/ calls = [Update (globalCopy APP_ID (params_id req))]
        \/ calls = [Update (globalCopy APP_ID (params_id req));
                    Get (globalCopy APP_ID (params_id req))]
        \/ exists d u,
             docs w !! globalCopy APP_ID (params_id req) = Some d
             /\ field d "userId" = JStr u
             /\ calls = order_of_code APP_ID (params_id req) u)
    /\ (statusCode (fst (update_status APP_ID user req w)) = 200 ->
        forall d, docs w !! globalCopy APP_ID (params_id req) = Some d ->
                  truthy (field d "userId") = true ->
        exists u, field d "userId" = JStr u
                  /\ calls = order_of_code APP_ID (params_id req) u).
Proof.
  destruct (update_status APP_ID user req w) as [resp w'] eqn:H.
  cbn [fst snd].
  apply update_status_cases in H as [(_ & -> & ->) | (_ & R)].
  { exists []. rewrite app_nil_r. repeat split; auto. discriminate. }
  destruct R.
  - exists []. rewrite app_nil_r. repeat split; auto. discriminate.
  - eexists. split; [reflexivity|]. split; [auto|discriminate].
  - eexists. split; [reflexivity|]. split; [auto|discriminate].
  - eexists. split; [world_simpl; now rewrite <- app_assoc|].
    split; [cbn; auto|discriminate].
  - eexists. split; [world_simpl; now rewrite <- app_assoc|].
    split; [cbn; auto|]. intros _ d0 Hd0 Ht. congruence.
  - eexists. split; [world_simpl; now rewrite <- app_assoc|].
    split; [cbn; auto|discriminate].
  - eexists. split; [world_simpl; now rewrite <- !app_assoc|].
    split; [|discriminate]. cbn. right. right. right. now exists d, u.
  - eexists. split; [world_simpl; now rewrite <- !app_assoc|].
    split; [|discriminate]. cbn. right. right. right. now exists d, u.
  - eexists. split; [world_simpl; now rewrite <- !app_assoc|].
    split.
    + cbn. right. right. right. now exists d, u.
    + intros _ d0 Hd0 _. exists u. split; [congruence|reflexivity].
Qed.

Lemma update_status_call_order_witness :
  exists calls,
    trace (snd (update_status "app" (mkDecoded "u1") req_approve w_applied))
    = trace w_applied ++ calls
    /\ calls = order_of_code "app" "X1" "u1".
Proof.
  destruct (update_status_call_order "app" (mkDecoded "u1") req_approve
              w_applied) as (calls & Ht & _ & Hok).
  destruct (Hok eq_refl
              (stored 103 (application_fields "u1" (body req_apply)
                             ++ [("applicationId", WVal (JStr "X1"))])))
    as (u & Hu & Hc).
  - reflexivity.
  - reflexivity.
  - exists calls. split; [exact Ht|].
    rewrite Hc. assert (u = "u1") by (vm_compute in Hu; congruence).
    now subst u.
Defined.

(** ** Submitting an application (C1, C6) *)

Lemma stored_cons (now : nat) (k : string) (f : WField)
    (data : list (string * WField)) :
  stored now ((k, f) :: data)
  = <[k := match f with
           | WVal v => FVal v
           | WServerTimestamp => FTimestamp now
           end]> (stored now data).
Proof. reflexivity. Qed.

Lemma stored_nil (now : nat) : stored now [] = ∅.
Proof. reflexivity. Qed.

Ltac stored_simpl :=
  unfold global_data, user_data, application_fields;
  cbn [app]; rewrite ?stored_cons, ?stored_nil.

(** Both copies are written with status Pending. *)
Lemma stored_status (t1 t2 : nat) (user : DecodedToken) (req : Request)
    (id : string) :
  stored t1 (user_data user req) !! "status" = Some (FVal (JStr "Pending"))
  /\ stored t2 (global_data user req id) !! "status"
     = Some (FVal (JStr "Pending")).
Proof.
  split; stored_simpl;
    rewrite !lookup_insert_ne by discriminate; apply lookup_insert_eq.
Qed.

Lemma stored_appliedDate (t1 t2 : nat) (user : DecodedToken) (req : Request)
    (id : string) :
  stored t1 (user_data user req) !! "appliedDate" = Some (FTimestamp t1)
  /\ stored t2 (global_data user req id) !! "appliedDate"
     = Some (FTimestamp t2).
Proof.
  split; stored_simpl;
    rewrite !lookup_insert_ne by discriminate; apply lookup_insert_eq.
Qed.

Lemma stored_applicationId (t1 t2 : nat) (user : DecodedToken) (req : Request)
    (id : string) :
  stored t1 (user_data user req) !! "applicationId" = None
  /\ stored t2 (global_data user req id) !! "applicationId"
     = Some (FVal (JStr id)).
Proof.
  split; stored_simpl; rewrite !lookup_insert_ne by discriminate.
  - apply lookup_empty.
  - apply lookup_insert_eq.
Qed.

Lemma insert_lookup_congr (m1 m2 : Doc) (i k : string) (x : Field) :
  m1 !! k = m2 !! k -> <[i := x]> m1 !! k = <[i := x]> m2 !! k.
Proof.
  intros H. destruct (decide (i = k)) as [->|Hne].
  - now rewrite !lookup_insert_eq.
  - now rewrite !lookup_insert_ne by exact Hne.
Qed.

(** Apart from the inline id and the two server timestamps, the two copies
    are written with the same fields. *)
Lemma stored_shared (t1 t2 : nat) (user : DecodedToken) (req : Request)
    (id k : string) :
  k <> "applicationId" -> k <> "appliedDate" ->
  stored t2 (global_data user req id) !! k = stored t1 (user_data user req) !! k.
Proof.
  intros Hid Hdate. symmetry. stored_simpl.
  repeat apply insert_lookup_congr.
  now rewrite !lookup_insert_ne by congruence.
Qed.

Lemma after_set_copies (APP_ID : string) (user : DecodedToken) (req : Request)
    (w : World) :
  docs (after_set APP_ID user req w) !! userCopy APP_ID (uid user) (new_id w)
  = Some (stored (clock w + elapsed (next_event w)) (user_data user req))
  /\ docs (after_set APP_ID user req w) !! globalCopy APP_ID (new_id w)
     = Some (stored (clock w + elapsed (next_event w)
                     + elapsed (next_event (after_add APP_ID user req w)))
               (global_data user req (new_id w))).
Proof.
  unfold after_set, after_add. world_simpl. split.
  - rewrite lookup_insert_ne by apply not_eq_sym, userCopy_neq_globalCopy.
    apply lookup_insert_eq.
  - apply lookup_insert_eq.
Qed.

(** ** Data the store accepts *)

Lemma truthy_defined (v : JsVal) : truthy v = true -> v <> JUndefined.
Proof. intros H ->. discriminate H. Qed.

Lemma is_undefined_WVal (v : JsVal) :
  v <> JUndefined -> is_undefined (WVal v) = false.
Proof. intros H. destruct v; try reflexivity. now contradiction H. Qed.

Lemma has_undefined_with_id (data : list (string * WField)) (id : string) :
  has_undefined (data ++ [("applicationId", WVal (JStr id))])
  = has_undefined data.
Proof.
  unfold has_undefined. rewrite existsb_app.
  cbn [existsb snd is_undefined]. now rewrite !orb_false_r.
Qed.

(** The store accepts the data of an application exactly when the request
    carries every field that is written. *)
Lemma has_undefined_user_data (user : DecodedToken) (req : Request) :
  truthy (prop (body req) "loanType") = true ->
  truthy (prop (body req) "purpose") = true ->
  truthy (prop (body req) "panNumber") = true ->
  truthy (prop (body req) "requestedLoanAmount") = true ->
  carries_optional req ->
  has_undefined (user_data user req) = false.
Proof.
  intros T1 T2 T3 T4 (O1 & O2 & O3 & O4 & O5). unfold carries in *.
  unfold has_undefined, user_data, application_fields. cbn [existsb snd].
  rewrite !is_undefined_WVal
    by (first [assumption | discriminate | now apply truthy_defined]).
  reflexivity.
Qed.

(** The ways an application can end: refused, failed, or written to both
    locations. *)
Lemma apply_loan_cases (APP_ID : string) (user : DecodedToken) (req : Request)
    (w : World) :
  statusCode (fst (apply_loan APP_ID user req w)) = 400
  \/ statusCode (fst (apply_loan APP_ID user req w)) = 500
  \/ apply_loan APP_ID user req w
     = (application_submitted (new_id w), after_set APP_ID user req w).
Proof.
  unfold apply_loan.
  destruct (negb (truthy (prop (body req) "loanType"))
            || negb (truthy (prop (body req) "purpose"))
            || negb (truthy (prop (body req) "panNumber"))
            || negb (truthy (prop (body req) "requestedLoanAmount"))).
  { left. reflexivity. }
  right. unfold try_respond. rewrite bind_run, doc_run.
  destruct (String.eqb (uid user) ""); [left; reflexivity|].
  rewrite bind_run, add_run.
  destruct (has_undefined (application_fields (uid user) (body req))) eqn:Hund;
    [left; reflexivity|].
  destruct (fault (next_event w)); [left; reflexivity|].
  cbn zeta.
  match goal with
  | |- context [match docs w !! ?p with _ => _ end] => destruct (docs w !! p)
  end; [left; reflexivity|].
  rewrite bind_run, doc_run.
  destruct (String.eqb (fresh (next_event w)) ""); [left; reflexivity|].
  rewrite bind_run, set_doc_run, has_undefined_with_id, Hund.
  match goal with
  | |- context [match fault ?e with _ => _ end] => destruct (fault e)
  end; [left; reflexivity|].
  right. reflexivity.
Qed.

(** An application that carries its required and optional fields is written
    to both locations when the store serves the two writes, the generated
    identifier being a non-empty one not yet used under that user. *)
Lemma apply_loan_accepted (APP_ID : string) (user : DecodedToken)
    (req : Request) (w : World) :
  truthy (prop (body req) "loanType") = true ->
  truthy (prop (body req) "purpose") = true ->
  truthy (prop (body req) "panNumber") = true ->
  truthy (prop (body req) "requestedLoanAmount") = true ->
  carries_optional req ->
  uid user <> "" -> new_id w <> "" ->
  docs w !! userCopy APP_ID (uid user) (new_id w) = None ->
  accepts w 2 ->
  apply_loan APP_ID user req w
  = (application_submitted (new_id w), after_set APP_ID user req w).
Proof.
  intros T1 T2 T3 T4 Hopt Hu Hid Hnew Hacc.
  pose proof (has_undefined_user_data user req T1 T2 T3 T4 Hopt) as Hund.
  unfold apply_loan. rewrite T1, T2, T3, T4. cbn [negb orb].
  unfold try_respond.
  rewrite bind_run, doc_run, (eqb_empty_false _ Hu).
  unfold user_data in Hund.
  rewrite bind_run, add_run, Hund, (accepts_0 _ _ Hacc). cbn zeta.
  change (((users APP_ID ++ [uid user]) ++ ["loanApplications"])
            ++ [fresh (next_event w)])
    with (userCopy APP_ID (uid user) (new_id w)).
  rewrite Hnew.
  rewrite bind_run, doc_run. fold (new_id w). rewrite (eqb_empty_false _ Hid).
  rewrite bind_run, set_doc_run, has_undefined_with_id, Hund.
  match goal with
  | |- context [match fault ?e with _ => _ end] =>
      replace (fault e) with (@None Error)
  end; [reflexivity|].
  symmetry. specialize (Hacc 1 ltac:(lia)).
  unfold next_event, set_docs, called. cbn [trace env].
  now rewrite length_app.
Qed.

(** A submission without its optional fields passes [undefined] for them
    and is refused by the store client before anything is written. *)
Example required_fields_alone_are_refused :
  fst (route_apply_loan "app" req_required_only w_empty)
  = handleError undefined_value "Error submitting loan application"
  /\ docs (snd (route_apply_loan "app" req_required_only w_empty))
     = docs w_empty.
Proof. split; reflexivity. Qed.

(** C1 as the spec words it fails on one shared field: the two copies are
    written by two successive calls, and appliedDate is in each the time at
    which the server committed that call.  On the sample submission, which
    carries all nine fields, and where one unit of time passes per call, the
    per-user copy is dated 102 and the global copy 103. *)
Lemma create_timestamps_differ :
  statusCode (fst (route_apply_loan "app" req_apply w_empty)) = 201
  /\ (docs w_applied !! userCopy "app" "u1" "X1") ≫= (fun d => d !! "appliedDate")
     = Some (FTimestamp 102)
  /\ (docs w_applied !! globalCopy "app" "X1") ≫= (fun d => d !! "appliedDate")
     = Some (FTimestamp 103)
  /\ (docs w_applied !! userCopy "app" "u1" "X1") ≫= (fun d => d !! "appliedDate")
     <> (docs w_applied !! globalCopy "app" "X1") ≫= (fun d => d !! "appliedDate").
Proof.
  split; [reflexivity|]. split; [reflexivity|]. split; [reflexivity|].
  vm_compute. discriminate.
Qed.

(** C1, amended.  An apply-loan request that carries its four required
    fields and its five optional fields, with a token that verifies for a
    user with a non-empty id, is answered 201 with the generated id when the
    store serves the two writes (the id being non-empty and unused under
    that user).  After it both copies exist under that id; every field other
    than applicationId and appliedDate is the same in both; the global copy
    alone holds applicationId, equal to the id; and appliedDate is in each
    copy the server clock at which the call that wrote that copy was served:
    [t1] for the add of the per-user copy, [t2], not before [t1], for the
    set of the global copy. *)
Theorem create_dual_write (APP_ID : string) (req : Request) (w : World)
    (t : string) (user : DecodedToken) (w1 : World) :
  verified req w t user w1 ->
  truthy (prop (body req) "loanType") = true ->
  truthy (prop (body req) "purpose") = true ->
  truthy (prop (body req) "panNumber") = true ->
  truthy (prop (body req) "requestedLoanAmount") = true ->
  carries_optional req ->
  uid user <> "" -> new_id w1 <> "" ->
  docs w !! userCopy APP_ID (uid user) (new_id w1) = None ->
  accepts w1 2 ->
  exists d1 d2 t1 t2,
    fst (route_apply_loan APP_ID req w) = application_submitted (new_id w1)
    /\ docs (snd (route_apply_loan APP_ID req w))
         !! userCopy APP_ID (uid user) (new_id w1) = Some d1
    /\ docs (snd (route_apply_loan APP_ID req w))
         !! globalCopy APP_ID (new_id w1) = Some d2
    /\ (forall k, k <> "applicationId" -> k <> "appliedDate" ->
                  d2 !! k = d1 !! k)
    /\ d1 !! "userId" = Some (FVal (JStr (uid user)))
    /\ d1 !! "applicationId" = None
    /\ d2 !! "applicationId" = Some (FVal (JStr (new_id w1)))
    /\ d1 !! "appliedDate" = Some (FTimestamp t1)
    /\ d2 !! "appliedDate" = Some (FTimestamp t2)
    /\ t1 <= t2
    /\ t1 = clock (called (Add (users APP_ID ++ [uid user; "loanApplications"]))
                     w1)
    /\ t2 = clock (called (Set_ (globalCopy APP_ID (new_id w1)))
                     (after_add APP_ID user req w1))
    /\ t2 = clock (snd (route_apply_loan APP_ID req w)).
Proof.
  intros Hv T1 T2 T3 T4 Hopt Hu Hid Hnew Hacc.
  unfold route_apply_loan. rewrite (protected_verified _ _ _ _ _ _ Hv).
  destruct (verified_frame _ _ _ _ _ Hv) as [Hw1 _].
  assert (Hd : docs w1 = docs w) by (now rewrite Hw1).
  assert (Hnew1 : docs w1 !! userCopy APP_ID (uid user) (new_id w1) = None)
    by (now rewrite Hd).
  rewrite (apply_loan_accepted APP_ID user req w1 T1 T2 T3 T4 Hopt Hu Hid
             Hnew1 Hacc).
  cbn [fst snd].
  destruct (after_set_copies APP_ID user req w1) as [Hc1 Hc2].
  set (t1 := clock w1 + elapsed (next_event w1)) in *.
  set (t2 := t1 + elapsed (next_event (after_add APP_ID user req w1))) in *.
  exists (stored t1 (user_data user req)),
         (stored t2 (global_data user req (new_id w1))), t1, t2.
  split; [reflexivity|].
  split; [exact Hc1|]. split; [exact Hc2|].
  split; [intros k; apply stored_shared|].
  split.
  { stored_simpl. apply lookup_insert_eq. }
  split; [exact (proj1 (stored_applicationId t1 t2 user req (new_id w1)))|].
  split; [exact (proj2 (stored_applicationId t1 t2 user req (new_id w1)))|].
  split; [exact (proj1 (stored_appliedDate t1 t2 user req (new_id w1)))|].
  split; [exact (proj2 (stored_appliedDate t1 t2 user req (new_id w1)))|].
  split; [subst t2; lia|].
  split; [reflexivity|]. split; reflexivity.
Qed.

Lemma create_dual_write_witness :
  exists d1 d2,
    fst (route_apply_loan "app" req_apply w_empty) = application_submitted "X1"
    /\ docs w_applied !! userCopy "app" "u1" "X1" = Some d1
    /\ docs w_applied !! globalCopy "app" "X1" = Some d2
    /\ d2 !! "loanType" = d1 !! "loanType"
    /\ d2 !! "applicationId" = Some (FVal (JStr "X1"))
    /\ d1 !! "appliedDate" = Some (FTimestamp 102)
    /\ d2 !! "appliedDate" = Some (FTimestamp 103).
Proof.
  destruct (create_dual_write "app" req_apply w_empty "tok" (mkDecoded "u1")
              (called (VerifyIdToken "tok") w_empty))
    as (d1 & d2 & t1 & t2 & Hr & H1 & H2 & Hs & _ & _ & Hi & D1 & D2 & _
        & E1 & E2 & _).
  - repeat split.
  - reflexivity.
  - reflexivity.
  - reflexivity.
  - reflexivity.
  - repeat split; discriminate.
  - discriminate.
  - discriminate.
  - reflexivity.
  - intros i _. reflexivity.
  - exists d1, d2. subst t1 t2. repeat split; try assumption.
    apply Hs; discriminate.
Defined.

(** C6. Whenever an apply-loan request is answered 201, the answer names an
    id under which both copies exist, and the status of both is "Pending":
    a status sent in the body is not read. *)
Theorem create_status_pending (APP_ID : string) (req : Request) (w : World) :
  statusCode (fst (route_apply_loan APP_ID req w)) = 201 ->
  exists u id d1 d2,
    fst (route_apply_loan APP_ID req w) = application_submitted id
    /\ docs (snd (route_apply_loan APP_ID req w)) !! userCopy APP_ID u id
       = Some d1
    /\ docs (snd (route_apply_loan APP_ID req w)) !! globalCopy APP_ID id
       = Some d2
    /\ d1 !! "status" = Some (FVal (JStr "Pending"))
    /\ d2 !! "status" = Some (FVal (JStr "Pending")).
Proof.
  unfold route_apply_loan.
  destruct (protected_cases (apply_loan APP_ID) req w)
    as [-> | [(t & e & ->) | (t & user & ->)]]; try discriminate.
  set (w1 := called (VerifyIdToken t) w).
  destruct (apply_loan_cases APP_ID user req w1) as [E | [E | ->]];
    try (rewrite E; discriminate).
  intros _. cbn [fst snd].
  destruct (after_set_copies APP_ID user req w1) as [Hc1 Hc2].
  eexists (uid user), (new_id w1), _, _.
  split; [reflexivity|]. split; [exact Hc1|]. split; [exact Hc2|].
  exact (stored_status _ _ user req (new_id w1)).
Qed.

Lemma create_status_pending_witness :
  prop (body req_apply) "status" = JStr "Approved"
  /\ exists u id d1 d2,
       docs w_applied !! userCopy "app" u id = Some d1
       /\ docs w_applied !! globalCopy "app" id = Some d2
       /\ d1 !! "status" = Some (FVal (JStr "Pending"))
       /\ d2 !! "status" = Some (FVal (JStr "Pending")).
Proof.
  split; [reflexivity|].
  destruct (create_status_pending "app" req_apply w_empty)
    as (u & id & d1 & d2 & _ & H1 & H2 & S1 & S2).
  - reflexivity.
  - exists u, id, d1, d2. auto.
Defined.

(** * Further properties of the handlers *)

(** ** The documents of a collection *)

Lemma child_id_Some (collection p : Path) (id : string) :
  child_id collection p = Some id <-> p = collection ++ [id].
Proof.
  unfold child_id. split.
  - intros H. case_decide as Ht; [|discriminate].
    destruct (drop (length collection) p) as [|x [|y l]] eqn:Hd;
      try discriminate.
    injection H as ->.
    now rewrite <- (take_drop (length collection) p), Ht, Hd.
  - intros ->. rewrite take_app_length, drop_app_length.
    now rewrite decide_True by reflexivity.
Qed.

(** Listing a collection gives exactly its documents. *)
Lemma elem_of_collection_docs (collection : Path) (m : gmap Path Doc)
    (id : string) (d : Doc) :
  (id, d) ∈ collection_docs collection m <-> m !! (collection ++ [id]) = Some d.
Proof.
  unfold collection_docs. rewrite merge_sort_Permutation, list_elem_of_omap.
  split.
  - intros ([p d0] & Hin & Hf). cbn [fst snd] in Hf.
    destruct (child_id collection p) as [id0|] eqn:Hc; [|discriminate].
    injection Hf as -> ->. apply child_id_Some in Hc as ->.
    now apply elem_of_map_to_list in Hin.
  - intros Hm. exists (collection ++ [id], d). split.
    + now apply elem_of_map_to_list.
    + cbn [fst snd].
      now rewrite (proj2 (child_id_Some collection _ id) eq_refl).
Qed.

(** No document is listed twice. *)
Lemma NoDup_collection_docs (collection : Path) (m : gmap Path Doc) :
  NoDup (collection_docs collection m).*1.
Proof.
  unfold collection_docs. rewrite merge_sort_Permutation.
  pose proof (NoDup_fst_map_to_list m) as Hnd.
  induction (map_to_list m) as [|[p d] l IH]; [constructor|].
  cbn [fmap list_fmap fst] in Hnd. apply NoDup_cons in Hnd as [Hp Hl].
  cbn [omap list_omap fst snd].
  destruct (child_id collection p) as [id|] eqn:Hc; [|now apply IH].
  cbn [fmap list_fmap fst]. apply NoDup_cons. split; [|now apply IH].
  intros Hin. apply list_elem_of_fmap in Hin as ([id' d'] & Heq & Hin).
  cbn [fst] in Heq. subst id'.
  apply list_elem_of_omap in Hin as ([p' d''] & Hin' & Hf).
  cbn [fst snd] in Hf.
  destruct (child_id collection p') as [id0|] eqn:Hc'; [|discriminate].
  injection Hf as -> ->.
  apply child_id_Some in Hc as ->. apply child_id_Some in Hc' as ->.
  apply Hp. apply list_elem_of_fmap. now exists (collection ++ [id], d').
Qed.

#[local] Instance id_le_total : Total id_le.
Proof. intros a b. unfold id_le. apply String.leb_total. Qed.

(** The listing is ordered by identifier. *)
Lemma Sorted_collection_docs (collection : Path) (m : gmap Path Doc) :
  Sorted id_le (collection_docs collection m).
Proof. unfold collection_docs. apply (Sorted_merge_sort id_le). Qed.

Lemma get_docs_run (collection : Path) (w : World) :
  get_docs collection w
  = match fault (next_event w) with
    | Some e => (Throw e, called (Get collection) w)
    | None => (Ok (collection_docs collection (docs w)), called (Get collection) w)
    end.
Proof. unfold get_docs, bind, external. now destruct (fault (next_event w)). Qed.

(** ** What a listed application looks like *)

Lemma application_object_lookup (id : string) (d : Doc) :
  (forall k, k <> "id" ->
     application_object (id, d) !! k = field_value <$> (d !! k))
  /\ (d !! "id" = None -> application_object (id, d) !! "id" = Some (JStr id)).
Proof.
  unfold application_object. cbn [fst snd]. split.
  - intros k Hk. rewrite lookup_union, lookup_fmap, lookup_singleton_ne by congruence.
    now destruct (d !! k).
  - intros Hn. rewrite lookup_union, lookup_fmap, Hn, lookup_singleton_eq.
    reflexivity.
Qed.

(** X10. Every field of a listed document is reported with its value, and
    the document's identifier is reported under [id]. A document that has a
    field named [id] of its own is the exception: that field is reported,
    not the identifier. *)
Theorem application_object_fields (id : string) (d : Doc) :
  (forall k, k <> "id" ->
     application_object (id, d) !! k = field_value <$> (d !! k))
  /\ (d !! "id" = None -> application_object (id, d) !! "id" = Some (JStr id))
  /\ (forall f, d !! "id" = Some f ->
        application_object (id, d) !! "id" = Some (field_value f)).
Proof.
  unfold application_object. cbn [fst snd]. repeat split.
  - intros k Hk. rewrite lookup_union, lookup_fmap, lookup_singleton_ne by congruence.
    now destruct (d !! k).
  - intros Hn. rewrite lookup_union, lookup_fmap, Hn, lookup_singleton_eq.
    reflexivity.
  - intros f Hf. rewrite lookup_union, lookup_fmap, Hf, lookup_singleton_eq.
    reflexivity.
Qed.

Lemma application_object_fields_witness :
  application_object ("X1", {["id" := FVal (JStr "other")]}) !! "id"
  = Some (JStr "other").
Proof.
  apply (proj2 (proj2 (application_object_fields "X1"
                         {["id" := FVal (JStr "other")]})) (FVal (JStr "other"))).
  reflexivity.
Defined.

(** ** The listings *)

(** X8. GET /api/loan-status with a token that verifies for a user with a
    non-empty id, when the store serves the read, answers 200 with exactly
    the applications stored under that user: each once, and none of another
    user. The store is only read. *)
Theorem loan_status_lists_own (APP_ID : string) (req : Request) (w : World)
    (t : string) (user : DecodedToken) (w1 : World) :
  verified req w t user w1 ->
  uid user <> "" ->
  fault (next_event w1) = None ->
  exists apps,
    fst (route_loan_status APP_ID req w) = listing apps
    /\ (forall id d,
          (id, d) ∈ apps <-> docs w !! userCopy APP_ID (uid user) id = Some d)
    /\ NoDup apps.*1
    /\ docs (snd (route_loan_status APP_ID req w)) = docs w
    /\ accounts (snd (route_loan_status APP_ID req w)) = accounts w.
Proof.
  intros Hv Hu Hf.
  unfold route_loan_status. rewrite (protected_verified _ _ _ _ _ _ Hv).
  destruct (verified_frame _ _ _ _ _ Hv) as [Hw1 _].
  assert (Hd : docs w1 = docs w) by (now rewrite Hw1).
  assert (Ha : accounts w1 = accounts w) by (now rewrite Hw1).
  unfold loan_status, try_respond.
  rewrite bind_run, doc_run, (eqb_empty_false _ Hu).
  rewrite bind_run, get_docs_run, Hf. cbn [ret fst snd].
  exists (collection_docs ((users APP_ID ++ [uid user]) ++ ["loanApplications"])
            (docs w1)).
  split; [reflexivity|]. split.
  { intros id d. rewrite elem_of_collection_docs, Hd. reflexivity. }
  split; [apply NoDup_collection_docs|].
  split; [exact Hd | exact Ha].
Qed.

(** X9. GET /api/admin/applications with any token that verifies, whoever
    its user is, answers 200 with exactly the documents of the global
    collection, each once, when the store serves the read: there is no check
    of a role and no filter on the owner. The store is only read. *)
Theorem admin_lists_all (APP_ID : string) (req : Request) (w : World)
    (t : string) (user : DecodedToken) (w1 : World) :
  verified req w t user w1 ->
  fault (next_event w1) = None ->
  exists apps,
    fst (route_admin_applications APP_ID req w) = listing apps
    /\ (forall id d, (id, d) ∈ apps <-> docs w !! globalCopy APP_ID id = Some d)
    /\ NoDup apps.*1
    /\ docs (snd (route_admin_applications APP_ID req w)) = docs w
    /\ accounts (snd (route_admin_applications APP_ID req w)) = accounts w.
Proof.
  intros Hv Hf.
  unfold route_admin_applications. rewrite (protected_verified _ _ _ _ _ _ Hv).
  destruct (verified_frame _ _ _ _ _ Hv) as [Hw1 _].
  assert (Hd : docs w1 = docs w) by (now rewrite Hw1).
  assert (Ha : accounts w1 = accounts w) by (now rewrite Hw1).
  unfold admin_applications, try_respond.
  rewrite bind_run, get_docs_run, Hf. cbn [ret fst snd].
  exists (collection_docs (allApplications APP_ID) (docs w1)).
  split; [reflexivity|]. split.
  { intros id d. rewrite elem_of_collection_docs, Hd. reflexivity. }
  split; [apply NoDup_collection_docs|].
  split; [exact Hd | exact Ha].
Qed.

Lemma loan_status_lists_own_witness :
  exists apps,
    fst (route_loan_status "app" req_apply w_applied) = listing apps
    /\ (forall id d,
          (id, d) ∈ apps <-> docs w_applied !! userCopy "app" "u1" id = Some d).
Proof.
  destruct (loan_status_lists_own "app" req_apply w_applied "tok"
              (mkDecoded "u1") (called (VerifyIdToken "tok") w_applied))
    as (apps & Hr & Hin & _).
  - repeat split.
  - discriminate.
  - reflexivity.
  - exists apps. split; assumption.
Defined.

Lemma admin_lists_all_witness :
  exists apps,
    fst (route_admin_applications "app" req_apply w_applied) = listing apps
    /\ (forall id d,
          (id, d) ∈ apps <-> docs w_applied !! globalCopy "app" id = Some d).
Proof.
  destruct (admin_lists_all "app" req_apply w_applied "tok"
              (mkDecoded "u1") (called (VerifyIdToken "tok") w_applied))
    as (apps & Hr & Hin & _).
  - repeat split.
  - reflexivity.
  - exists apps. split; assumption.
Defined.

(** ** Nothing is ever taken away *)

Lemma evolves_refl (w : World) : evolves w w.
Proof. unfold evolves. repeat split; auto. Qed.

Lemma evolves_trans (w1 w2 w3 : World) :
  evolves w1 w2 -> evolves w2 w3 -> evolves w1 w3.
Proof.
  intros (D1 & A1 & T1 & E1 & C1 & P1) (D2 & A2 & T2 & E2 & C2 & P2).
  unfold evolves. repeat split; auto; try congruence; try lia.
  now transitivity (trace w2).
Qed.

Lemma evolves_called (c : Call) (w : World) : evolves w (called c w).
Proof.
  unfold evolves, called; cbn. repeat split; auto; try lia.
  now apply prefix_app_r.
Qed.

Lemma evolves_insert_doc (p : Path) (d : Doc) (w : World) :
  evolves w (set_docs (insert p d) w).
Proof.
  unfold evolves, set_docs; cbn. repeat split; auto.
  intros q Hq. destruct (decide (p = q)) as [<-|Hne].
  - rewrite lookup_insert_eq. eauto.
  - now rewrite lookup_insert_ne.
Qed.

Lemma evolves_insert_account (u : string) (a : UserProps) (w : World) :
  evolves w (set_accounts (insert u a) w).
Proof.
  unfold evolves, set_accounts; cbn. repeat split; auto.
  intros q Hq. destruct (decide (u = q)) as [<-|Hne].
  - rewrite lookup_insert_eq. eauto.
  - now rewrite lookup_insert_ne.
Qed.

Lemma keeps_ret {A : Type} (a : A) : keeps (ret a).
Proof. intros w r w' H. inversion H. apply evolves_refl. Qed.

Lemma keeps_throw {A : Type} (e : Error) : keeps (@throw A e).
Proof. intros w r w' H. inversion H. apply evolves_refl. Qed.

Lemma keeps_bind {A B : Type} (c : M A) (k : A -> M B) :
  keeps c -> (forall a, keeps (k a)) -> keeps (bind c k).
Proof.
  intros Hc Hk w r w' H. unfold bind in H.
  destruct (c w) as [[a|e] w1] eqn:Ec.
  - eapply evolves_trans; [eapply Hc, Ec | eapply Hk, H].
  - inversion H; subst. eapply Hc, Ec.
Qed.

Lemma keeps_external (c : Call) : keeps (external c).
Proof.
  intros w r w' H. unfold external in H.
  destruct (fault (next_event w)); inversion H; apply evolves_called.
Qed.

Lemma keeps_doc (collection : Path) (id : JsVal) : keeps (doc collection id).
Proof.
  unfold doc. destruct id; try apply keeps_throw.
  destruct (String.eqb s ""); [apply keeps_throw | apply keeps_ret].
Qed.

Lemma keeps_verifyIdToken (t : string) : keeps (verifyIdToken t).
Proof.
  apply keeps_bind; [apply keeps_external|].
  intros _ w r w' H. destruct (tokens w !! t); inversion H; apply evolves_refl.
Qed.

Lemma keeps_createUser (props : UserProps) : keeps (createUser props).
Proof.
  apply keeps_bind; [apply keeps_external|].
  intros ev w r w' H. inversion H. apply evolves_insert_account.
Qed.

Lemma keeps_add (collection : Path) (data : list (string * WField)) :
  keeps (add collection data).
Proof.
  unfold add. destruct (has_undefined data); [apply keeps_throw|].
  apply keeps_bind; [apply keeps_external|].
  intros ev w r w' H. destruct (docs w !! (collection ++ [fresh ev]));
    inversion H; [apply evolves_refl | apply evolves_insert_doc].
Qed.

Lemma keeps_set_doc (ref : Path) (data : list (string * WField)) :
  keeps (set_doc ref data).
Proof.
  unfold set_doc. destruct (has_undefined data); [apply keeps_throw|].
  apply keeps_bind; [apply keeps_external|].
  intros ev w r w' H. inversion H. apply evolves_insert_doc.
Qed.

Lemma keeps_update (ref : Path) (data : list (string * JsVal)) :
  keeps (update ref data).
Proof.
  apply keeps_bind; [apply keeps_external|].
  intros ev w r w' H. destruct (docs w !! ref);
    inversion H; [apply evolves_insert_doc | apply evolves_refl].
Qed.

Lemma keeps_interpolate (v : JsVal) : keeps (interpolate v).
Proof.
  unfold interpolate. destruct (to_string v); [apply keeps_ret | apply keeps_throw].
Qed.

Lemma keeps_get_data (ref : Path) : keeps (get_data ref).
Proof.
  apply keeps_bind; [apply keeps_external|].
  intros ev w r w' H. inversion H. apply evolves_refl.
Qed.

Lemma keeps_get_docs (collection : Path) : keeps (get_docs collection).
Proof.
  apply keeps_bind; [apply keeps_external|].
  intros ev w r w' H. inversion H. apply evolves_refl.
Qed.

Lemma evolves_try_respond (c : M Response) (h : Error -> Response) (w : World) :
  keeps c -> evolves w (snd (try_respond c h w)).
Proof.
  intros Hc. unfold try_respond.
  destruct (c w) as [[r|e] w'] eqn:Ec; cbn [snd]; eapply Hc, Ec.
Qed.

Lemma evolves_protected (handler : DecodedToken -> Request -> Handler)
    (req : Request) (w : World) :
  (forall user w1, evolves w1 (snd (handler user req w1))) ->
  evolves w (snd (protected handler req w)).
Proof.
  intros Hh.
  destruct (protected_cases handler req w)
    as [-> | [(t & e & ->) | (t & user & ->)]]; cbn [snd].
  - apply evolves_refl.
  - apply evolves_called.
  - eapply evolves_trans; [apply evolves_called | apply Hh].
Qed.

Create HintDb keeps discriminated.
#[local] Hint Resolve keeps_ret keeps_throw keeps_external keeps_doc
  keeps_verifyIdToken keeps_createUser keeps_add keeps_set_doc keeps_update
  keeps_get_data keeps_get_docs keeps_interpolate : keeps.

Ltac keeps_steps :=
  repeat first [ solve [auto with keeps] | apply keeps_bind; [|intro] ].

(** X16. No route of the server ever takes anything away: after any request
    to any of the six routes, in any world and whatever the services do,
    every document and every account that existed still exists, the server
    clock has not gone back, and the calls issued before are still the
    beginning of the trace. *)
Theorem routes_never_delete (APP_ID : string) (req : Request) (w : World) :
  evolves w (snd (route_signup APP_ID req w))
  /\ evolves w (snd (route_apply_loan APP_ID req w))
  /\ evolves w (snd (route_loan_status APP_ID req w))
  /\ evolves w (snd (route_admin_applications APP_ID req w))
  /\ evolves w (snd (route_update_status APP_ID req w)).
Proof.
  unfold route_apply_loan, route_loan_status, route_admin_applications,
    route_update_status.
  split; [|split; [|split; [|split]]].
  - unfold route_signup, signup.
    destruct (_ || _); [apply evolves_refl|].
    apply evolves_try_respond. keeps_steps.
  - apply evolves_protected. intros user w1. unfold apply_loan.
    destruct (_ || _); [apply evolves_refl|].
    apply evolves_try_respond. keeps_steps.
  - apply evolves_protected. intros user w1. unfold loan_status.
    apply evolves_try_respond. keeps_steps.
  - apply evolves_protected. intros user w1. unfold admin_applications.
    apply evolves_try_respond. keeps_steps.
  - apply evolves_protected. intros user w1. unfold update_status.
    destruct (negb _); [apply evolves_refl|].
    apply evolves_try_respond. keeps_steps.
    destruct a1 as [d|]; [|apply keeps_ret].
    destruct (truthy (field d "userId")); [|apply keeps_ret].
    keeps_steps.
Qed.

(** ** Signing up *)

Lemma createUser_run (props : UserProps) (w : World) :
  createUser props w
  = match fault (next_event w) with
    | Some e => (Throw e, called CreateUser w)
    | None =>
        (Ok (fresh (next_event w)),
         set_accounts (insert (fresh (next_event w)) props) (called CreateUser w))
    end.
Proof. unfold createUser, bind, external. now destruct (fault (next_event w)). Qed.

Lemma signup_valid (APP_ID : string) (req : Request) (w : World) :
  truthy (prop (body req) "email") = true ->
  truthy (prop (body req) "password") = true ->
  truthy (prop (body req) "mobile") = true ->
  route_signup APP_ID req w
  = try_respond
      (let! userRecord := createUser (signup_props req) in
       let! userRef := doc (users APP_ID) (JStr userRecord) in
       do! set_doc userRef (profile_data req) in
       ret (user_created userRecord))
      (fun error =>
         match code error with
         | JStr c =>
             if String.eqb c "auth/email-already-in-use"
             then email_registered
             else handleError error "Error creating user"
         | _ => handleError error "Error creating user"
         end)
      w.
Proof.
  intros T1 T2 T3. unfold route_signup, signup. now rewrite T1, T2, T3.
Qed.

Lemma has_undefined_profile (req : Request) :
  truthy (prop (body req) "email") = true ->
  truthy (prop (body req) "mobile") = true ->
  has_undefined (profile_data req) = false.
Proof.
  intros T1 T3. unfold has_undefined, profile_data. cbn [existsb snd].
  rewrite !is_undefined_WVal by (now apply truthy_defined). reflexivity.
Qed.

(** How the catch block of signup answers an error. *)
Lemma signup_catch (e : Error) :
  (email_in_use e ->
     match code e with
     | JStr c =>
         if String.eqb c "auth/email-already-in-use"
         then email_registered
         else handleError e "Error creating user"
     | _ => handleError e "Error creating user"
     end = email_registered)
  /\ (~ email_in_use e ->
      match code e with
      | JStr c =>
          if String.eqb c "auth/email-already-in-use"
          then email_registered
          else handleError e "Error creating user"
      | _ => handleError e "Error creating user"
      end = handleError e "Error creating user").
Proof.
  unfold email_in_use. split.
  - intros ->. reflexivity.
  - intros Hn. destruct (code e); try reflexivity.
    destruct (String.eqb_spec s "auth/email-already-in-use"); [|reflexivity].
    subst. now contradiction Hn.
Qed.

(** X1. A signup with its three fields, when the identity provider creates
    the account and the store serves the write, is answered 201 with the new
    uid. The account holds the email, the password and the mobile number as
    phone number; the profile document of that uid holds the email, the
    mobile number and the server time of its creation, and no password; no
    other document is touched. *)
Theorem signup_creates (APP_ID : string) (req : Request) (w : World) :
  truthy (prop (body req) "email") = true ->
  truthy (prop (body req) "password") = true ->
  truthy (prop (body req) "mobile") = true ->
  accepts w 2 ->
  fresh (next_event w) <> "" ->
  exists profile created,
    fst (route_signup APP_ID req w) = user_created (fresh (next_event w))
    /\ accounts (snd (route_signup APP_ID req w)) !! fresh (next_event w)
       = Some (signup_props req)
    /\ docs (snd (route_signup APP_ID req w))
         !! (users APP_ID ++ [fresh (next_event w)]) = Some profile
    /\ profile !! "email" = Some (FVal (prop (body req) "email"))
    /\ profile !! "mobile" = Some (FVal (prop (body req) "mobile"))
    /\ profile !! "createdAt" = Some (FTimestamp created)
    /\ clock w <= created
    /\ (forall k, k <> "email" -> k <> "mobile" -> k <> "createdAt" ->
                  profile !! k = None)
    /\ (forall p, p <> users APP_ID ++ [fresh (next_event w)] ->
                  docs (snd (route_signup APP_ID req w)) !! p = docs w !! p).
Proof.
  intros T1 T2 T3 Hacc Hid.
  rewrite (signup_valid APP_ID req w T1 T2 T3). unfold try_respond.
  rewrite bind_run, createUser_run, (accepts_0 _ _ Hacc).
  rewrite bind_run, doc_run, (eqb_empty_false _ Hid).
  rewrite bind_run, set_doc_run, (has_undefined_profile req T1 T3).
  match goal with
  | |- context [match fault ?e with _ => _ end] =>
      replace (fault e) with (@None Error)
  end.
  2:{ symmetry. specialize (Hacc 1 ltac:(lia)).
      unfold next_event, set_accounts, called. cbn [trace env].
      now rewrite length_app. }
  cbn zeta. cbn [ret fst snd].
  eexists (stored _ (profile_data req)), _.
  split; [reflexivity|]. world_simpl.
  split; [apply lookup_insert_eq|].
  split; [apply lookup_insert_eq|].
  unfold profile_data. rewrite !stored_cons, stored_nil.
  split; [apply lookup_insert_eq|].
  split; [rewrite lookup_insert_ne by discriminate; apply lookup_insert_eq|].
  split; [rewrite !lookup_insert_ne by discriminate; apply lookup_insert_eq|].
  split; [lia|].
  split.
  - intros k K1 K2 K3. rewrite !lookup_insert_ne by congruence.
    apply lookup_empty.
  - intros p Hp. now rewrite lookup_insert_ne by congruence.
Qed.

Lemma signup_creates_witness :
  fst (route_signup "app" req_signup w_empty) = user_created "X1"
  /\ accounts (snd (route_signup "app" req_signup w_empty)) !! "X1"
     = Some (signup_props req_signup).
Proof.
  destruct (signup_creates "app" req_signup w_empty)
    as (profile & created & Hr & Ha & _).
  - reflexivity.
  - reflexivity.
  - reflexivity.
  - intros i _. reflexivity.
  - discriminate.
  - split; assumption.
Defined.

(** X2. A signup whose account creation the identity provider refuses writes
    nothing: no account, no document. It is answered 409 exactly when the
    error code is auth/email-already-in-use, and otherwise 500 with the
    message of the error as details. *)
Theorem signup_provider_refuses (APP_ID : string) (req : Request) (w : World)
    (e : Error) :
  truthy (prop (body req) "email") = true ->
  truthy (prop (body req) "password") = true ->
  truthy (prop (body req) "mobile") = true ->
  fault (next_event w) = Some e ->
  docs (snd (route_signup APP_ID req w)) = docs w
  /\ accounts (snd (route_signup APP_ID req w)) = accounts w
  /\ trace (snd (route_signup APP_ID req w)) = trace w ++ [CreateUser]
  /\ (email_in_use e -> fst (route_signup APP_ID req w) = email_registered)
  /\ (~ email_in_use e ->
      fst (route_signup APP_ID req w) = handleError e "Error creating user").
Proof.
  intros T1 T2 T3 Hf.
  rewrite (signup_valid APP_ID req w T1 T2 T3). unfold try_respond.
  rewrite bind_run, createUser_run, Hf. cbn [fst snd].
  repeat split; apply signup_catch.
Qed.

Lemma signup_provider_refuses_witness :
  fst (route_signup "app" req_signup (w_failing_first duplicate_email))
  = email_registered
  /\ fst (route_signup "app" req_signup (w_failing_first unavailable))
     = handleError unavailable "Error creating user"
  /\ docs (snd (route_signup "app" req_signup (w_failing_first unavailable)))
     = docs (w_failing_first unavailable).
Proof.
  destruct (signup_provider_refuses "app" req_signup
              (w_failing_first duplicate_email) duplicate_email)
    as (_ & _ & _ & H409 & _); try reflexivity.
  destruct (signup_provider_refuses "app" req_signup
              (w_failing_first unavailable) unavailable)
    as (Hd & _ & _ & _ & H500); try reflexivity.
  split; [apply H409; reflexivity|].
  split; [apply H500; discriminate | exact Hd].
Defined.

(** X3. A signup whose account was created but whose profile write the store
    fails leaves the account behind without a profile document: the account
    is registered, the store is as before, and the answer is the error
    answer of the catch block (500, or 409 if the store's error carries the
    code auth/email-already-in-use). *)
Theorem signup_profile_write_fails (APP_ID : string) (req : Request)
    (w : World) (e : Error) :
  truthy (prop (body req) "email") = true ->
  truthy (prop (body req) "password") = true ->
  truthy (prop (body req) "mobile") = true ->
  fault (next_event w) = None ->
  fresh (next_event w) <> "" ->
  fault (env w (length (trace w) + 1)) = Some e ->
  accounts (snd (route_signup APP_ID req w)) !! fresh (next_event w)
  = Some (signup_props req)
  /\ docs (snd (route_signup APP_ID req w)) = docs w
  /\ (email_in_use e -> fst (route_signup APP_ID req w) = email_registered)
  /\ (~ email_in_use e ->
      fst (route_signup APP_ID req w) = handleError e "Error creating user").
Proof.
  intros T1 T2 T3 Hf Hid Hf2.
  rewrite (signup_valid APP_ID req w T1 T2 T3). unfold try_respond.
  rewrite bind_run, createUser_run, Hf.
  rewrite bind_run, doc_run, (eqb_empty_false _ Hid).
  rewrite bind_run, set_doc_run, (has_undefined_profile req T1 T3).
  match goal with
  | |- context [match fault ?x with _ => _ end] =>
      replace (fault x) with (Some e)
  end.
  2:{ symmetry. unfold next_event, set_accounts, called. cbn [trace env].
      now rewrite length_app. }
  cbn [fst snd]. world_simpl.
  split; [apply lookup_insert_eq|]. split; [reflexivity|].
  split; apply signup_catch.
Qed.

Lemma signup_profile_write_fails_witness :
  accounts (snd (route_signup "app" req_signup (w_failing_second unavailable)))
    !! "X1" = Some (signup_props req_signup)
  /\ docs (snd (route_signup "app" req_signup (w_failing_second unavailable)))
     = docs (w_failing_second unavailable)
  /\ statusCode
       (fst (route_signup "app" req_signup (w_failing_second unavailable)))
     = 500.
Proof.
  destruct (signup_profile_write_fails "app" req_signup
              (w_failing_second unavailable) unavailable)
    as (Ha & Hd & _ & H500); try reflexivity; try discriminate.
  split; [exact Ha|]. split; [exact Hd|].
  rewrite H500 by discriminate. reflexivity.
Defined.

(** ** Applications that fail half way *)

Lemma apply_loan_valid (APP_ID : string) (user : DecodedToken) (req : Request)
    (w : World) :
  truthy (prop (body req) "loanType") = true ->
  truthy (prop (body req) "purpose") = true ->
  truthy (prop (body req) "panNumber") = true ->
  truthy (prop (body req) "requestedLoanAmount") = true ->
  apply_loan APP_ID user req w
  = try_respond
      (let! userRef := doc (users APP_ID) (JStr (uid user)) in
       let! loanApplicationRef :=
         add (userRef ++ ["loanApplications"]) (user_data user req) in
       let! centralRef := doc (allApplications APP_ID) (JStr loanApplicationRef) in
       do! set_doc centralRef (global_data user req loanApplicationRef) in
       ret (application_submitted loanApplicationRef))
      (fun error => handleError error "Error submitting loan application")
      w.
Proof.
  intros T1 T2 T3 T4. unfold apply_loan. now rewrite T1, T2, T3, T4.
Qed.

(** The world in which only the per-user copy of a new application has
    been written. *)
Lemma after_add_docs (APP_ID : string) (user : DecodedToken) (req : Request)
    (w : World) :
  docs (after_add APP_ID user req w)
  = <[userCopy APP_ID (uid user) (new_id w) :=
        stored (clock w + elapsed (next_event w)) (user_data user req)]> (docs w).
Proof. reflexivity. Qed.

(** X6. When the per-user copy of a new application (one that carries its
    required and optional fields) was written but the store fails the write
    of the global copy, the answer is 500 with the message of the store's
    error, and the store is left with the per-user copy and without its
    mirror: the global collection is as before. *)
Theorem apply_loan_half_written (APP_ID : string) (user : DecodedToken)
    (req : Request) (w : World) (e : Error) :
  truthy (prop (body req) "loanType") = true ->
  truthy (prop (body req) "purpose") = true ->
  truthy (prop (body req) "panNumber") = true ->
  truthy (prop (body req) "requestedLoanAmount") = true ->
  carries_optional req ->
  uid user <> "" -> new_id w <> "" ->
  docs w !! userCopy APP_ID (uid user) (new_id w) = None ->
  fault (next_event w) = None ->
  fault (env w (length (trace w) + 1)) = Some e ->
  fst (apply_loan APP_ID user req w)
  = handleError e "Error submitting loan application"
  /\ docs (snd (apply_loan APP_ID user req w))
       !! userCopy APP_ID (uid user) (new_id w)
     = Some (stored (clock w + elapsed (next_event w)) (user_data user req))
  /\ (forall id,
        docs (snd (apply_loan APP_ID user req w)) !! globalCopy APP_ID id
        = docs w !! globalCopy APP_ID id).
Proof.
  intros T1 T2 T3 T4 Hopt Hu Hid Hnew Hf Hf2.
  pose proof (has_undefined_user_data user req T1 T2 T3 T4 Hopt) as Hund.
  rewrite (apply_loan_valid APP_ID user req w T1 T2 T3 T4). unfold try_respond.
  rewrite bind_run, doc_run, (eqb_empty_false _ Hu).
  rewrite bind_run, add_run, Hund, Hf. cbn zeta.
  change (((users APP_ID ++ [uid user]) ++ ["loanApplications"])
            ++ [fresh (next_event w)])
    with (userCopy APP_ID (uid user) (new_id w)).
  rewrite Hnew.
  rewrite bind_run, doc_run. fold (new_id w). rewrite (eqb_empty_false _ Hid).
  unfold global_data.
  rewrite bind_run, set_doc_run, has_undefined_with_id. fold (user_data user req).
  rewrite Hund.
  match goal with
  | |- context [match fault ?x with _ => _ end] =>
      replace (fault x) with (Some e)
  end.
  2:{ symmetry. unfold next_event, set_docs, called. cbn [trace env].
      now rewrite length_app. }
  cbn [fst snd]. world_simpl.
  split; [reflexivity|]. split; [apply lookup_insert_eq|].
  intros id. apply lookup_insert_ne, userCopy_neq_globalCopy.
Qed.

Lemma apply_loan_half_written_witness :
  statusCode (fst (apply_loan "app" (mkDecoded "u1") req_apply
                     (w_failing_second unavailable))) = 500
  /\ is_Some (docs (snd (apply_loan "app" (mkDecoded "u1") req_apply
                           (w_failing_second unavailable)))
                !! userCopy "app" "u1" "X1")
  /\ docs (snd (apply_loan "app" (mkDecoded "u1") req_apply
                  (w_failing_second unavailable)))
       !! globalCopy "app" "X1" = None.
Proof.
  destruct (apply_loan_half_written "app" (mkDecoded "u1") req_apply
              (w_failing_second unavailable) unavailable)
    as (Hr & Hu & Hg).
  - reflexivity.
  - reflexivity.
  - reflexivity.
  - reflexivity.
  - repeat split; discriminate.
  - discriminate.
  - discriminate.
  - reflexivity.
  - reflexivity.
  - reflexivity.
  - split; [now rewrite Hr|]. split; [eexists; exact Hu|].
    etransitivity; [apply Hg | reflexivity].
Defined.

(** X17. An application that has its four required fields but lacks one
    of the five optional ones hands [undefined] to the store client, which
    refuses the data: the answer is 500 with the client's message, no call
    is issued to the store and the world is exactly as before. *)
Theorem apply_loan_without_optional_field (APP_ID : string)
    (user : DecodedToken) (req : Request) (w : World) :
  truthy (prop (body req) "loanType") = true ->
  truthy (prop (body req) "purpose") = true ->
  truthy (prop (body req) "panNumber") = true ->
  truthy (prop (body req) "requestedLoanAmount") = true ->
  uid user <> "" ->
  lacks_optional req ->
  apply_loan APP_ID user req w
  = (handleError undefined_value "Error submitting loan application", w).
Proof.
  intros T1 T2 T3 T4 Hu Hlack.
  assert (Hund : has_undefined (user_data user req) = true).
  { unfold has_undefined, user_data, application_fields. cbn [existsb snd].
    destruct Hlack as [H | [H | [H | [H | H]]]]; rewrite H;
      cbn [is_undefined orb]; now rewrite ?orb_true_r. }
  rewrite (apply_loan_valid APP_ID user req w T1 T2 T3 T4). unfold try_respond.
  rewrite bind_run, doc_run, (eqb_empty_false _ Hu).
  now rewrite bind_run, add_run, Hund.
Qed.

Lemma apply_loan_without_optional_field_witness :
  apply_loan "app" (mkDecoded "u1") req_required_only w_empty
  = (handleError undefined_value "Error submitting loan application", w_empty).
Proof.
  apply apply_loan_without_optional_field.
  - reflexivity.
  - reflexivity.
  - reflexivity.
  - reflexivity.
  - discriminate.
  - left. reflexivity.
Defined.

(** The four ways an application ends, with what each leaves in the
    store. *)
Lemma apply_loan_outcomes (APP_ID : string) (user : DecodedToken)
    (req : Request) (w : World) :
  (statusCode (fst (apply_loan APP_ID user req w)) = 400
   /\ snd (apply_loan APP_ID user req w) = w)
  \/ (statusCode (fst (apply_loan APP_ID user req w)) = 500
      /\ docs (snd (apply_loan APP_ID user req w)) = docs w)
  \/ (statusCode (fst (apply_loan APP_ID user req w)) = 500
      /\ docs w !! userCopy APP_ID (uid user) (new_id w) = None
      /\ docs (snd (apply_loan APP_ID user req w))
         = docs (after_add APP_ID user req w))
  \/ (apply_loan APP_ID user req w
      = (application_submitted (new_id w), after_set APP_ID user req w)
      /\ docs w !! userCopy APP_ID (uid user) (new_id w) = None).
Proof.
  unfold apply_loan.
  destruct (negb (truthy (prop (body req) "loanType"))
            || negb (truthy (prop (body req) "purpose"))
            || negb (truthy (prop (body req) "panNumber"))
            || negb (truthy (prop (body req) "requestedLoanAmount"))).
  { left. split; reflexivity. }
  right. unfold try_respond. rewrite bind_run, doc_run.
  destruct (String.eqb (uid user) ""); [left; split; reflexivity|].
  rewrite bind_run, add_run.
  destruct (has_undefined (application_fields (uid user) (body req))) eqn:Hund;
    [left; split; reflexivity|].
  destruct (fault (next_event w)); [left; split; reflexivity|].
  cbn zeta.
  change (((users APP_ID ++ [uid user]) ++ ["loanApplications"])
            ++ [fresh (next_event w)])
    with (userCopy APP_ID (uid user) (new_id w)).
  destruct (docs w !! userCopy APP_ID (uid user) (new_id w)) eqn:Hnew;
    [left; split; reflexivity|].
  right. rewrite bind_run, doc_run.
  destruct (String.eqb (fresh (next_event w)) "");
    [left; repeat split; reflexivity|].
  rewrite bind_run, set_doc_run, has_undefined_with_id, Hund.
  match goal with
  | |- context [match fault ?e with _ => _ end] => destruct (fault e)
  end; [left; repeat split; reflexivity|].
  right. split; reflexivity.
Qed.

(** X7. Whatever happens, an application touches at most the two documents
    under the identifier that the store generated for it; and unless it is
    answered 201 the global collection is exactly as before. *)
Theorem apply_loan_frame (APP_ID : string) (user : DecodedToken)
    (req : Request) (w : World) :
  (forall p,
     p <> userCopy APP_ID (uid user) (new_id w) ->
     p <> globalCopy APP_ID (new_id w) ->
     docs (snd (apply_loan APP_ID user req w)) !! p = docs w !! p)
  /\ (statusCode (fst (apply_loan APP_ID user req w)) <> 201 ->
      forall id,
        docs (snd (apply_loan APP_ID user req w)) !! globalCopy APP_ID id
        = docs w !! globalCopy APP_ID id)
  /\ accounts (snd (apply_loan APP_ID user req w)) = accounts w.
Proof.
  split; [|split].
  - intros p Hp1 Hp2.
    destruct (apply_loan_outcomes APP_ID user req w)
      as [[_ ->] | [[_ ->] | [(_ & _ & ->) | [-> _]]]]; try reflexivity.
    + rewrite after_add_docs. now rewrite lookup_insert_ne by congruence.
    + cbn [snd]. unfold after_set. world_simpl.
      rewrite lookup_insert_ne by congruence.
      rewrite after_add_docs. now rewrite lookup_insert_ne by congruence.
  - intros Hcode id.
    destruct (apply_loan_outcomes APP_ID user req w)
      as [[_ ->] | [[_ ->] | [(_ & _ & ->) | [E _]]]]; try reflexivity.
    + rewrite after_add_docs. apply lookup_insert_ne, userCopy_neq_globalCopy.
    + rewrite E in Hcode. now contradiction Hcode.
  - unfold apply_loan.
    destruct (_ || _); [reflexivity|].
    unfold try_respond. rewrite bind_run, doc_run.
    destruct (String.eqb (uid user) ""); [reflexivity|].
    rewrite bind_run, add_run.
    destruct (has_undefined (application_fields (uid user) (body req))) eqn:Hund;
      [reflexivity|].
    destruct (fault (next_event w)); [reflexivity|]. cbn zeta.
    match goal with
    | |- context [match docs w !! ?p with _ => _ end] => destruct (docs w !! p)
    end; [reflexivity|].
    rewrite bind_run, doc_run.
    destruct (String.eqb (fresh (next_event w)) ""); [reflexivity|].
    rewrite bind_run, set_doc_run, has_undefined_with_id, Hund.
    match goal with
    | |- context [match fault ?e with _ => _ end] => destruct (fault e)
    end; reflexivity.
Qed.

Lemma apply_loan_frame_witness :
  docs (snd (apply_loan "app" (mkDecoded "u1") req_apply
               (w_failing_second unavailable)))
    !! globalCopy "app" "X1"
  = docs (w_failing_second unavailable) !! globalCopy "app" "X1".
Proof.
  apply (proj1 (proj2 (apply_loan_frame "app" (mkDecoded "u1") req_apply
                         (w_failing_second unavailable)))).
  discriminate.
Defined.

(** ** Status updates, one after another *)

(** The run of a status update that reaches both copies. *)
Lemma update_status_synced (APP_ID : string) (user : DecodedToken)
    (req : Request) (w : World) (u : string) (d d' : Doc) :
  truthy (prop (body req) "status") = true ->
  params_id req <> "" ->
  docs w !! globalCopy APP_ID (params_id req) = Some d ->
  field d "userId" = JStr u -> u <> "" ->
  docs w !! userCopy APP_ID u (params_id req) = Some d' ->
  accepts w 3 ->
  update_status APP_ID user req w
  = (status_answer req,
     set_docs (insert (userCopy APP_ID u (params_id req))
                 (patch (status_data req) d'))
       (after_user APP_ID req d u w)).
Proof.
  intros Kst Kid Kg Ku Kune Kc Kacc.
  pose proof (update_status_run APP_ID user req w Kst) as R.
  destruct (update_status APP_ID user req w) as [resp w'].
  cbn [fst snd] in *.
  pose proof (accepts_0 _ _ Kacc) as A0.
  pose proof (accepts_1 APP_ID req d w 1 Kacc) as A1.
  pose proof (accepts_2 APP_ID req d w 0 Kacc) as A2.
  pose proof (proj2 (truthy_JStr u) Kune) as Tu.
  destruct R; try congruence;
    try (assert (d0 = d) by congruence; subst d0);
    try congruence;
    try (rewrite Ku in Hu; congruence);
    try (exfalso; now apply (Hns u));
    try (assert (u0 = u) by congruence; subst u0; try congruence).
Qed.

(** X13. When the global copy names an owner under whom no copy exists, a
    status update served by the store is answered 500, and yet the global
    copy has been changed: it holds the new status and repayment, and
    nothing was written under the owner. *)
Theorem update_status_half_written (APP_ID : string) (user : DecodedToken)
    (req : Request) (w : World) (u : string) (d : Doc) :
  truthy (prop (body req) "status") = true ->
  params_id req <> "" ->
  docs w !! globalCopy APP_ID (params_id req) = Some d ->
  field d "userId" = JStr u -> u <> "" ->
  docs w !! userCopy APP_ID u (params_id req) = None ->
  accepts w 3 ->
  fst (update_status APP_ID user req w) = status_failed not_found
  /\ (exists g',
        docs (snd (update_status APP_ID user req w))
          !! globalCopy APP_ID (params_id req) = Some g'
        /\ g' !! "status" = Some (FVal (prop (body req) "status"))
        /\ g' !! "repayment"
           = Some (FVal (js_or (prop (body req) "repayment") JNull)))
  /\ docs (snd (update_status APP_ID user req w))
       !! userCopy APP_ID u (params_id req) = None.
Proof.
  intros Kst Kid Kg Ku Kune Kc Kacc.
  pose proof (update_status_run APP_ID user req w Kst) as R.
  destruct (update_status APP_ID user req w) as [resp w'].
  cbn [fst snd] in *.
  pose proof (accepts_0 _ _ Kacc) as A0.
  pose proof (accepts_1 APP_ID req d w 1 Kacc) as A1.
  pose proof (accepts_2 APP_ID req d w 0 Kacc) as A2.
  pose proof (proj2 (truthy_JStr u) Kune) as Tu.
  destruct R; try congruence;
    try (assert (d0 = d) by congruence; subst d0);
    try congruence;
    try (rewrite Ku in Hu; congruence);
    try (exfalso; now apply (Hns u));
    try (assert (u0 = u) by congruence; subst u0; try congruence).
  split; [reflexivity|]. world_simpl. split.
  - exists (patch (status_data req) d).
    split; [apply lookup_insert_eq|]. apply patch_status_lookup.
  - rewrite lookup_insert_ne by (apply not_eq_sym, userCopy_neq_globalCopy).
    exact Kc.
Qed.

Lemma update_status_half_written_witness :
  statusCode (fst (update_status "app" (mkDecoded "u1") req_approve w_orphan))
  = 500
  /\ exists g',
       docs (snd (update_status "app" (mkDecoded "u1") req_approve w_orphan))
         !! globalCopy "app" "X1" = Some g'
       /\ g' !! "status" = Some (FVal (JStr "Approved")).
Proof.
  destruct (update_status_half_written "app" (mkDecoded "u1") req_approve
              w_orphan "u9" {[ "userId" := FVal (JStr "u9") ]})
    as (Hr & (g' & Hg & Hs & _) & _).
  - reflexivity.
  - discriminate.
  - reflexivity.
  - reflexivity.
  - discriminate.
  - reflexivity.
  - intros i _. reflexivity.
  - split; [now rewrite Hr|]. exists g'. split; assumption.
Defined.

Lemma accepts_shift (w w' : World) (n k : nat) :
  env w' = env w ->
  length (trace w') = length (trace w) + n ->
  accepts w (n + k) -> accepts w' k.
Proof.
  intros He Hl Hacc i Hi. rewrite He, Hl, <- Nat.add_assoc.
  apply Hacc. lia.
Qed.

Lemma patch_twice_same_but_status (req1 req2 : Request) (d : Doc) :
  same_but_status d (patch (status_data req2) (patch (status_data req1) d)).
Proof.
  intros k Hs Hr. unfold status_data.
  etransitivity; apply patch_status_other; assumption.
Qed.

(** X14. Two status updates of the same application, one after the other and
    both served by the store, the second with a non-empty string as status:
    the second is answered 200 whatever the first had set, both copies end
    with the status and repayment of the second, and every other field of
    both copies is as it was before the first. No transition is refused, so
    an approved application can be set back to pending. *)
Theorem update_status_last_wins (APP_ID : string) (user1 user2 : DecodedToken)
    (req1 req2 : Request) (w : World) (u s2 : string) (d d' : Doc) :
  params_id req2 = params_id req1 ->
  truthy (prop (body req1) "status") = true ->
  prop (body req2) "status" = JStr s2 -> s2 <> "" ->
  params_id req1 <> "" ->
  docs w !! globalCopy APP_ID (params_id req1) = Some d ->
  field d "userId" = JStr u -> u <> "" ->
  docs w !! userCopy APP_ID u (params_id req1) = Some d' ->
  accepts w 6 ->
  exists g2 d2,
    fst (update_status APP_ID user2 req2
           (snd (update_status APP_ID user1 req1 w)))
    = status_updated req2
    /\ docs (snd (update_status APP_ID user2 req2
                    (snd (update_status APP_ID user1 req1 w))))
         !! globalCopy APP_ID (params_id req1) = Some g2
    /\ docs (snd (update_status APP_ID user2 req2
                    (snd (update_status APP_ID user1 req1 w))))
         !! userCopy APP_ID u (params_id req1) = Some d2
    /\ g2 !! "status" = Some (FVal (prop (body req2) "status"))
    /\ d2 !! "status" = Some (FVal (prop (body req2) "status"))
    /\ g2 !! "repayment"
       = Some (FVal (js_or (prop (body req2) "repayment") JNull))
    /\ d2 !! "repayment"
       = Some (FVal (js_or (prop (body req2) "repayment") JNull))
    /\ same_but_status d g2
    /\ same_but_status d' d2.
Proof.
  intros Kid2 Kst1 Ks2 Ks2ne Kid Kg Ku Kune Kc Kacc.
  assert (Kst2 : truthy (prop (body req2) "status") = true)
    by (rewrite Ks2; now apply truthy_JStr).
  assert (Kacc3 : accepts w 3) by (intros i Hi; apply Kacc; lia).
  rewrite (update_status_synced APP_ID user1 req1 w u d d'
             Kst1 Kid Kg Ku Kune Kc Kacc3).
  cbn [snd].
  set (w1 := set_docs _ _).
  assert (Hg1 : docs w1 !! globalCopy APP_ID (params_id req2)
                = Some (patch (status_data req1) d)).
  { rewrite Kid2. subst w1. world_simpl.
    rewrite lookup_insert_ne by apply userCopy_neq_globalCopy.
    apply lookup_insert_eq. }
  assert (Hu1 : docs w1 !! userCopy APP_ID u (params_id req2)
                = Some (patch (status_data req1) d')).
  { rewrite Kid2. subst w1. world_simpl. apply lookup_insert_eq. }
  assert (Hf1 : field (patch (status_data req1) d) "userId" = JStr u)
    by (now rewrite field_status_data).
  assert (Hacc1 : accepts w1 3).
  { apply (accepts_shift w w1 3 3); [reflexivity | | exact Kacc].
    subst w1. world_simpl. rewrite !length_app. cbn [length]. lia. }
  assert (Kid' : params_id req2 <> "") by congruence.
  rewrite (update_status_synced APP_ID user2 req2 w1 u _ _
             Kst2 Kid' Hg1 Hf1 Kune Hu1 Hacc1).
  cbn [fst snd]. rewrite <- Kid2, (status_answer_string req2 s2 Ks2).
  exists (patch (status_data req2) (patch (status_data req1) d)),
         (patch (status_data req2) (patch (status_data req1) d')).
  split; [reflexivity|]. world_simpl.
  split.
  { rewrite lookup_insert_ne by apply userCopy_neq_globalCopy.
    apply lookup_insert_eq. }
  split; [apply lookup_insert_eq|].
  split; [apply patch_status_lookup|].
  split; [apply patch_status_lookup|].
  split; [apply patch_status_lookup|].
  split; [apply patch_status_lookup|].
  split; apply patch_twice_same_but_status.
Qed.

Lemma update_status_last_wins_witness :
  exists g2 d2,
    docs (snd (update_status "app" (mkDecoded "u1") req_revert
                 (snd (update_status "app" (mkDecoded "u1") req_approve
                         w_applied))))
      !! globalCopy "app" "X1" = Some g2
    /\ docs (snd (update_status "app" (mkDecoded "u1") req_revert
                    (snd (update_status "app" (mkDecoded "u1") req_approve
                            w_applied))))
         !! userCopy "app" "u1" "X1" = Some d2
    /\ g2 !! "status" = Some (FVal (JStr "Pending"))
    /\ d2 !! "status" = Some (FVal (JStr "Pending"))
    /\ g2 !! "repayment" = Some (FVal JNull).
Proof.
  destruct (update_status_last_wins "app" (mkDecoded "u1") (mkDecoded "u1")
              req_approve req_revert w_applied "u1" "Pending"
              (stored 103 (application_fields "u1" (body req_apply)
                             ++ [("applicationId", WVal (JStr "X1"))]))
              (stored 102 (application_fields "u1" (body req_apply))))
    as (g2 & d2 & _ & Hg & Hd & Sg & Sd & Rg & _).
  - reflexivity.
  - reflexivity.
  - reflexivity.
  - discriminate.
  - discriminate.
  - reflexivity.
  - reflexivity.
  - discriminate.
  - reflexivity.
  - intros i _. reflexivity.
  - exists g2, d2. auto.
Defined.

(** ** From submission to listing and update *)

Lemma after_set_accepts (APP_ID : string) (user : DecodedToken) (req : Request)
    (w : World) (k : nat) :
  accepts w (2 + k) -> accepts (after_set APP_ID user req w) k.
Proof.
  apply accepts_shift; [reflexivity|].
  unfold after_set, after_add. world_simpl.
  rewrite !length_app. cbn [length]. lia.
Qed.

Lemma accepts_le (w : World) (n k : nat) : k <= n -> accepts w n -> accepts w k.
Proof. intros Hle Hacc i Hi. apply Hacc. lia. Qed.

Lemma field_user_data_userId (t : nat) (user : DecodedToken) (req : Request)
    (id : string) :
  field (stored t (global_data user req id)) "userId" = JStr (uid user).
Proof.
  unfold field. stored_simpl. now rewrite lookup_insert_eq.
Qed.

(** X15. An application that was submitted and then updated: when an
    application that carries its required and optional fields is accepted
    and a status update on the identifier it was answered with, with a
    non-empty string as status, is served by the store, the update is
    answered 200, both copies hold the status and repayment of the update
    instead of Pending, and every other field of each copy is as the
    submission wrote it. *)
Theorem submit_then_update (APP_ID : string) (user admin : DecodedToken)
    (req upd : Request) (w : World) (s : string) :
  truthy (prop (body req) "loanType") = true ->
  truthy (prop (body req) "purpose") = true ->
  truthy (prop (body req) "panNumber") = true ->
  truthy (prop (body req) "requestedLoanAmount") = true ->
  carries_optional req ->
  uid user <> "" -> new_id w <> "" ->
  docs w !! userCopy APP_ID (uid user) (new_id w) = None ->
  params_id upd = new_id w ->
  prop (body upd) "status" = JStr s -> s <> "" ->
  accepts w 5 ->
  exists d1 d2 g2 t1 t2,
    fst (apply_loan APP_ID user req w) = application_submitted (new_id w)
    /\ fst (update_status APP_ID admin upd
              (snd (apply_loan APP_ID user req w))) = status_updated upd
    /\ docs (snd (update_status APP_ID admin upd
                    (snd (apply_loan APP_ID user req w))))
         !! userCopy APP_ID (uid user) (new_id w) = Some d2
    /\ docs (snd (update_status APP_ID admin upd
                    (snd (apply_loan APP_ID user req w))))
         !! globalCopy APP_ID (new_id w) = Some g2
    /\ d2 !! "status" = Some (FVal (prop (body upd) "status"))
    /\ g2 !! "status" = Some (FVal (prop (body upd) "status"))
    /\ d2 !! "repayment" = g2 !! "repayment"
    /\ d1 = stored t1 (user_data user req)
    /\ same_but_status d1 d2
    /\ same_but_status (stored t2 (global_data user req (new_id w))) g2.
Proof.
  intros T1 T2 T3 T4 Hopt Hu Hid Hnew Hpid Hs Hsne Hacc.
  assert (Hst : truthy (prop (body upd) "status") = true)
    by (rewrite Hs; now apply truthy_JStr).
  rewrite (apply_loan_accepted APP_ID user req w T1 T2 T3 T4 Hopt Hu Hid Hnew
             (accepts_le w 5 2 ltac:(lia) Hacc)).
  cbn [fst snd].
  destruct (after_set_copies APP_ID user req w) as [Hc1 Hc2].
  rewrite <- Hpid in Hc1, Hc2.
  assert (Hid' : params_id upd <> "") by congruence.
  rewrite (update_status_synced APP_ID admin upd _ (uid user) _ _
             Hst Hid' Hc2 (field_user_data_userId _ user req _) Hu Hc1
             (after_set_accepts APP_ID user req w 3 Hacc)).
  cbn [fst snd]. rewrite <- Hpid, (status_answer_string upd s Hs).
  eexists (stored _ (user_data user req)),
          (patch (status_data upd) (stored _ (user_data user req))),
          (patch (status_data upd) (stored _ (global_data user req _))), _, _.
  split; [reflexivity|]. split; [reflexivity|]. world_simpl.
  split; [apply lookup_insert_eq|].
  split.
  { rewrite lookup_insert_ne by apply userCopy_neq_globalCopy.
    apply lookup_insert_eq. }
  split; [apply patch_status_lookup|].
  split; [apply patch_status_lookup|].
  split.
  { unfold status_data.
    rewrite (proj2 (patch_status_lookup _ _ _)).
    now rewrite (proj2 (patch_status_lookup _ _ _)). }
  split; [reflexivity|].
  split; apply patch_status_other.
Qed.

Lemma submit_then_update_witness :
  exists d2 g2,
    docs (snd (update_status "app" (mkDecoded "admin") req_approve
                 (snd (apply_loan "app" (mkDecoded "u1") req_apply w_empty))))
      !! userCopy "app" "u1" "X1" = Some d2
    /\ docs (snd (update_status "app" (mkDecoded "admin") req_approve
                    (snd (apply_loan "app" (mkDecoded "u1") req_apply w_empty))))
         !! globalCopy "app" "X1" = Some g2
    /\ d2 !! "status" = Some (FVal (JStr "Approved"))
    /\ g2 !! "status" = Some (FVal (JStr "Approved")).
Proof.
  destruct (submit_then_update "app" (mkDecoded "u1") (mkDecoded "admin")
              req_apply req_approve w_empty "Approved")
    as (d1 & d2 & g2 & t1 & t2 & _ & _ & Hd & Hg & Sd & Sg & _).
  - reflexivity.
  - reflexivity.
  - reflexivity.
  - reflexivity.
  - repeat split; discriminate.
  - discriminate.
  - discriminate.
  - reflexivity.
  - reflexivity.
  - reflexivity.
  - discriminate.
  - intros i _. reflexivity.
  - exists d2, g2. auto.
Defined.

(** X12. An accepted application (one that carries its required and optional
    fields) shows up in both listings: read right after the submission, the
    applicant's listing and the admin listing each
    contain the new application under the identifier the submission was
    answered with, with status Pending; the admin entry also carries that
    identifier as applicationId. *)
Theorem submitted_application_is_listed (APP_ID : string)
    (user reader : DecodedToken) (req get : Request) (w : World) :
  truthy (prop (body req) "loanType") = true ->
  truthy (prop (body req) "purpose") = true ->
  truthy (prop (body req) "panNumber") = true ->
  truthy (prop (body req) "requestedLoanAmount") = true ->
  carries_optional req ->
  uid user <> "" -> new_id w <> "" ->
  docs w !! userCopy APP_ID (uid user) (new_id w) = None ->
  accepts w 3 ->
  exists d1 d2 own all,
    fst (loan_status APP_ID user get (snd (apply_loan APP_ID user req w)))
    = listing own
    /\ fst (admin_applications APP_ID reader get
              (snd (apply_loan APP_ID user req w))) = listing all
    /\ (new_id w, d1) ∈ own
    /\ (new_id w, d2) ∈ all
    /\ application_object (new_id w, d1) !! "id" = Some (JStr (new_id w))
    /\ application_object (new_id w, d1) !! "status" = Some (JStr "Pending")
    /\ application_object (new_id w, d2) !! "id" = Some (JStr (new_id w))
    /\ application_object (new_id w, d2) !! "applicationId"
       = Some (JStr (new_id w))
    /\ application_object (new_id w, d2) !! "status" = Some (JStr "Pending").
Proof.
  intros T1 T2 T3 T4 Hopt Hu Hid Hnew Hacc.
  rewrite (apply_loan_accepted APP_ID user req w T1 T2 T3 T4 Hopt Hu Hid Hnew
             (accepts_le w 3 2 ltac:(lia) Hacc)).
  cbn [snd].
  destruct (after_set_copies APP_ID user req w) as [Hc1 Hc2].
  pose proof (accepts_0 _ _ (after_set_accepts APP_ID user req w 1 Hacc)) as Hf.
  unfold loan_status, admin_applications, try_respond.
  rewrite bind_run, doc_run, (eqb_empty_false _ Hu).
  rewrite !bind_run, !get_docs_run, Hf. cbn [ret fst snd].
  set (t1 := clock w + elapsed (next_event w)) in *.
  set (t2 := t1 + elapsed (next_event (after_add APP_ID user req w))) in *.
  exists (stored t1 (user_data user req)),
         (stored t2 (global_data user req (new_id w))).
  eexists _, _. split; [reflexivity|]. split; [reflexivity|].
  split; [apply elem_of_collection_docs; exact Hc1|].
  split; [apply elem_of_collection_docs; exact Hc2|].
  assert (Hnoid1 : stored t1 (user_data user req) !! "id" = None).
  { stored_simpl. rewrite !lookup_insert_ne by discriminate. apply lookup_empty. }
  assert (Hnoid2 : stored t2 (global_data user req (new_id w)) !! "id" = None).
  { stored_simpl. rewrite !lookup_insert_ne by discriminate. apply lookup_empty. }
  destruct (application_object_lookup (new_id w) (stored t1 (user_data user req)))
    as (F1 & I1).
  destruct (application_object_lookup (new_id w)
              (stored t2 (global_data user req (new_id w)))) as (F2 & I2).
  split; [now apply I1|].
  split.
  { rewrite F1 by discriminate.
    now rewrite (proj1 (stored_status t1 t2 user req (new_id w))). }
  split; [now apply I2|].
  split.
  { rewrite F2 by discriminate.
    now rewrite (proj2 (stored_applicationId t1 t2 user req (new_id w))). }
  rewrite F2 by discriminate.
  now rewrite (proj2 (stored_status t1 t2 user req (new_id w))).
Qed.

Lemma submitted_application_is_listed_witness :
  exists d1 own,
    fst (loan_status "app" (mkDecoded "u1") req_anonymous
           (snd (apply_loan "app" (mkDecoded "u1") req_apply w_empty)))
    = listing own
    /\ ("X1", d1) ∈ own
    /\ application_object ("X1", d1) !! "status" = Some (JStr "Pending").
Proof.
  destruct (submitted_application_is_listed "app" (mkDecoded "u1")
              (mkDecoded "admin") req_apply req_anonymous w_empty)
    as (d1 & d2 & own & all & Ho & _ & Hin & _ & _ & Hs & _).
  - reflexivity.
  - reflexivity.
  - reflexivity.
  - reflexivity.
  - repeat split; discriminate.
  - discriminate.
  - discriminate.
  - reflexivity.
  - intros i _. reflexivity.
  - exists d1, own. auto.
Defined.

(** ** The listings only read *)

(** X11. The two listing routes never write: whatever the request, the world
    and the services, the documents and the accounts after a listing are
    those before it, and the answer is 200, 401 or 500. *)
Theorem listings_only_read (APP_ID : string) (req : Request) (w : World) :
  docs (snd (route_loan_status APP_ID req w)) = docs w
  /\ accounts (snd (route_loan_status APP_ID req w)) = accounts w
  /\ (statusCode (fst (route_loan_status APP_ID req w)) = 200
      \/ statusCode (fst (route_loan_status APP_ID req w)) = 401
      \/ statusCode (fst (route_loan_status APP_ID req w)) = 500)
  /\ docs (snd (route_admin_applications APP_ID req w)) = docs w
  /\ accounts (snd (route_admin_applications APP_ID req w)) = accounts w
  /\ (statusCode (fst (route_admin_applications APP_ID req w)) = 200
      \/ statusCode (fst (route_admin_applications APP_ID req w)) = 401
      \/ statusCode (fst (route_admin_applications APP_ID req w)) = 500).
Proof.
  unfold route_loan_status, route_admin_applications.
  assert (Hl : forall user w1,
             docs (snd (loan_status APP_ID user req w1)) = docs w1
             /\ accounts (snd (loan_status APP_ID user req w1)) = accounts w1
             /\ (statusCode (fst (loan_status APP_ID user req w1)) = 200
                 \/ statusCode (fst (loan_status APP_ID user req w1)) = 500)).
  { intros user w1. unfold loan_status, try_respond.
    rewrite bind_run, doc_run.
    destruct (String.eqb (uid user) ""); [cbn; auto|].
    rewrite bind_run, get_docs_run.
    destruct (fault (next_event w1)); cbn; auto. }
  assert (Ha : forall user w1,
             docs (snd (admin_applications APP_ID user req w1)) = docs w1
             /\ accounts (snd (admin_applications APP_ID user req w1)) = accounts w1
             /\ (statusCode (fst (admin_applications APP_ID user req w1)) = 200
                 \/ statusCode (fst (admin_applications APP_ID user req w1)) = 500)).
  { intros user w1. unfold admin_applications, try_respond.
    rewrite bind_run, get_docs_run.
    destruct (fault (next_event w1)); cbn; auto. }
  destruct (protected_cases (loan_status APP_ID) req w)
    as [-> | [(t & e & ->) | (t & user & ->)]];
  destruct (protected_cases (admin_applications APP_ID) req w)
    as [-> | [(t' & e' & ->) | (t' & user' & ->)]];
  repeat match goal with
         | |- context [loan_status APP_ID ?u req ?w1] =>
             let D := fresh in let A := fresh in let C := fresh in
             destruct (Hl u w1) as (D & A & C);
             rewrite D, A; clear D A;
             generalize dependent (loan_status APP_ID u req w1); intros
         | |- context [admin_applications APP_ID ?u req ?w1] =>
             let D := fresh in let A := fresh in let C := fresh in
             destruct (Ha u w1) as (D & A & C);
             rewrite D, A; clear D A;
             generalize dependent (admin_applications APP_ID u req w1); intros
         end;
  cbn; intuition auto.
Qed.

(** ** Reading the bearer token *)

Lemma append_cons (c : ascii) (s t : string) :
  String.append (String c s) t = String c (String.append s t).
Proof. reflexivity. Qed.

Lemma append_empty_l (t : string) : String.append "" t = t.
Proof. reflexivity. Qed.

Lemma prefix_append (sep t : string) : String.prefix sep (String.append sep t) = true.
Proof.
  induction sep as [|c sep IH].
  - now destruct t.
  - rewrite append_cons. simpl.
    destruct (Ascii.ascii_dec c c); [exact IH | contradiction].
Qed.

Lemma prefix_true_occurs (sep s : string) :
  String.prefix sep s = true -> exists b, s = String.append sep b.
Proof.
  revert s. induction sep as [|c sep IH]; intros s H.
  - exists s. reflexivity.
  - destruct s as [|c' s]; [discriminate|]. simpl in H.
    destruct (Ascii.ascii_dec c c') as [<-|]; [|discriminate].
    destruct (IH s H) as [b ->]. exists b. now rewrite append_cons.
Qed.

Lemma split_from_skip (sep a t cur : string) :
  split_from sep (String.append a t) (String.length a) cur
  = split_from sep t 0 cur.
Proof.
  induction a as [|c a IH].
  - rewrite append_empty_l. reflexivity.
  - rewrite append_cons. exact IH.
Qed.

Lemma append_assoc_char (cur : string) (c : ascii) (t : string) :
  String.append (String.append cur (String c "")) t
  = String.append cur (String c t).
Proof.
  induction cur as [|x cur IH]; [reflexivity|].
  rewrite !append_cons. now f_equal.
Qed.

Lemma append_empty_r (s : string) : String.append s "" = s.
Proof.
  induction s as [|c s IH]; [reflexivity|]. rewrite append_cons. now f_equal.
Qed.

(** A string in which the separator does not occur is not split. *)
Lemma split_from_whole (sep t cur : string) :
  ~ occurs sep t ->
  split_from sep t 0 cur = [String.append cur t].
Proof.
  revert cur. induction t as [|c t IH]; intros cur Hno.
  - cbn. now rewrite append_empty_r.
  - cbn [split_from].
    destruct (String.prefix sep (String c t)) eqn:Hp.
    + exfalso. apply Hno. destruct (prefix_true_occurs _ _ Hp) as [b Hb].
      exists "", b. now rewrite append_empty_l.
    + rewrite IH; [now rewrite append_assoc_char|].
      intros (a & b & ->). apply Hno. exists (String c a), b.
      now rewrite append_cons.
Qed.

Lemma occurs_includes (sep s : string) : occurs sep s -> includes sep s = true.
Proof.
  intros (a & b & ->). induction a as [|c a IH].
  - rewrite append_empty_l.
    destruct (String.append sep b) eqn:E; cbn [includes]; rewrite <- E;
      now rewrite prefix_append.
  - rewrite append_cons. cbn [includes]. rewrite IH. apply orb_true_r.
Qed.

Lemma split_sep_first (sep t : string) :
  sep <> "" ->
  split (String.append sep t) sep = "" :: split_from sep t 0 "".
Proof.
  intros Hne. unfold split. destruct sep as [|c sep]; [congruence|].
  rewrite append_cons. cbn [split_from].
  rewrite <- append_cons, prefix_append.
  replace (String.length (String c sep) - 1) with (String.length sep)
    by (cbn [String.length]; lia).
  now rewrite split_from_skip.
Qed.

(** An Authorization header made of the scheme and a token is read back as
    that token. *)
Lemma idToken_of_bearer (t id : string) (b : gmap string JsVal) :
  ~ occurs "Bearer " t ->
  idToken_of (mkRequest (Some (String.append "Bearer " t)) id b) = JStr t.
Proof.
  intros Hno. unfold idToken_of. cbn [authorization].
  rewrite split_sep_first by discriminate.
  now rewrite (split_from_whole "Bearer " t "" Hno).
Qed.

(** A header in which the scheme does not occur carries no token. *)
Lemma idToken_of_other (h id : string) (b : gmap string JsVal) :
  ~ occurs "Bearer " h ->
  idToken_of (mkRequest (Some h) id b) = JUndefined.
Proof.
  intros Hno. unfold idToken_of, split. cbn [authorization].
  now rewrite (split_from_whole "Bearer " h "" Hno).
Qed.

(** X4. On a protected route, a request whose Authorization header is the
    scheme "Bearer " followed by a non-empty token that the identity
    provider knows runs the handler, with the uid of that token as the user,
    in a world that differs from the one before only by the verification
    call. *)
Theorem bearer_token_admits (handler : DecodedToken -> Request -> Handler)
    (t id u : string) (b : gmap string JsVal) (w : World) :
  ~ occurs "Bearer " t ->
  t <> "" ->
  tokens w !! t = Some u ->
  fault (next_event w) = None ->
  protected handler (mkRequest (Some (String.append "Bearer " t)) id b) w
  = handler (mkDecoded u) (mkRequest (Some (String.append "Bearer " t)) id b)
      (called (VerifyIdToken t) w).
Proof.
  intros Hno Hne Htok Hf.
  apply (protected_verified _ _ _ t). unfold verified.
  split; [now apply idToken_of_bearer|].
  split; [now apply truthy_JStr|].
  unfold verifyIdToken. rewrite bind_run. unfold external. rewrite Hf.
  cbn [tokens called]. now rewrite Htok.
Qed.

Lemma bearer_token_admits_witness :
  protected (apply_loan "app") req_apply w_empty
  = apply_loan "app" (mkDecoded "u1") req_apply
      (called (VerifyIdToken "tok") w_empty).
Proof.
  apply (bearer_token_admits (apply_loan "app") "tok" "" "u1" (body req_apply)
           w_empty).
  - intros H. apply occurs_includes in H. discriminate H.
  - discriminate.
  - reflexivity.
  - reflexivity.
Defined.

(** X5. On a protected route, a request whose Authorization header does not
    contain the scheme "Bearer " (another scheme, the scheme in lower case,
    a bare token) is answered 401 like one without the header, and nothing
    is called. *)
Theorem other_scheme_is_no_token (handler : DecodedToken -> Request -> Handler)
    (h id : string) (b : gmap string JsVal) (w : World) :
  ~ occurs "Bearer " h ->
  protected handler (mkRequest (Some h) id b) w = (no_token_response, w).
Proof.
  intros Hno. apply protected_no_token.
  now rewrite idToken_of_other.
Qed.

Lemma other_scheme_is_no_token_witness :
  protected (update_status "app")
    (mkRequest (Some "bearer tok") "X1" (body req_approve)) w_applied
  = (no_token_response, w_applied).
Proof.
  apply other_scheme_is_no_token.
  intros H. apply occurs_includes in H. discriminate H.
Defined.
